(** * Impersonated ID-token credentials and fleet-engine list iterators

    A shallow embedding of two Go files:

    - [auth/impersonate] (the ID-token part): [IDTokenOptions.validate],
      [NewIDTokenCredentials] and [impersonatedIDTokenProvider.Token];
    - [maps/fleetengine/delivery/apiv1/auxiliary.go]: the generated
      [DeliveryVehicleIterator] and [TaskIterator].

    Go strings and byte slices are [string]s (lists of bytes), [int] and
    times are [Z], slices are [list]s, a pointer that may be nil is an
    [option], [http.Header] is a [gmap].  A Go call returning
    [(value, error)] is an [exec]: it returns, fails with an [error], or
    panics.  Code that reads or writes the outside world is written in a
    state monad [M] over the state it touches. *)

From stdpp Require Import base strings list gmap pretty.
From Stdlib Require Import ZArith Lia.

Local Open Scope Z_scope.

(** ** Go errors *)

(** [errors.New] and [fmt.Errorf] without [%w] build a plain error value;
    [fmt.Errorf] with [%w] builds a wrapping error that keeps the formatted
    message and the cause. *)
Inductive error : Type :=
| errorString (msg : string)
| wrapError (msg : string) (cause : error).

(** The [Error()] method. *)
Definition Error (e : error) : string :=
  match e with
  | errorString msg => msg
  | wrapError msg _ => msg
  end.

Definition errors_New (msg : string) : error := errorString msg.

(** [fmt.Errorf(prefix + "%w", cause)]. *)
Definition fmt_Errorf_w (prefix : string) (cause : error) : error :=
  wrapError (prefix +:+ Error cause) cause.

(** [errors.Unwrap]. *)
Definition Unwrap (e : error) : option error :=
  match e with
  | errorString _ => None
  | wrapError _ cause => Some cause
  end.

(** [sub] occurs in [s]. *)
Definition contains (s sub : string) : Prop :=
  exists pre post : string, s = pre +:+ sub +:+ post.

(** ** Outcomes of a call *)

(** A collaborator that returns [(value, error)]. *)
Inductive result (A : Type) : Type :=
| Ok (a : A)
| Err (e : error).
Arguments Ok {A} a.
Arguments Err {A} e.

(** A call of the code under study: [Return a] is [(a, nil)], [Fail e] is
    [(zero, e)], [Panic msg] is a run-time panic. *)
Inductive exec (A : Type) : Type :=
| Return (a : A)
| Fail (e : error)
| Panic (msg : string).
Arguments Return {A} a.
Arguments Fail {A} e.
Arguments Panic {A} msg.

#[export] Instance exec_ret : MRet exec := fun A a => Return a.

#[export] Instance exec_bind : MBind exec :=
  fun A B k m =>
    match m with
    | Return a => k a
    | Fail e => Fail e
    | Panic msg => Panic msg
    end.

(** [p.f] through a pointer [p] that may be nil. *)
Definition field {R A : Type} (f : R -> A) (p : option R) : exec A :=
  match p with
  | Some r => Return (f r)
  | None => Panic "runtime error: invalid memory address or nil pointer dereference"
  end.

(** State monad over [exec]: the state after a failure or a panic is the
    state reached when it happened. *)
Definition M (S A : Type) : Type := S -> exec A * S.

Definition fail {S A : Type} (e : error) : M S A := fun s => (Fail e, s).

Definition panic {S A : Type} (msg : string) : M S A := fun s => (Panic msg, s).

#[export] Instance M_ret {S : Type} : MRet (M S) :=
  fun A a s => (Return a, s).

#[export] Instance M_bind {S : Type} : MBind (M S) :=
  fun A B k m s =>
    match m s with
    | (Return a, s') => k a s'
    | (Fail e, s') => (Fail e, s')
    | (Panic msg, s') => (Panic msg, s')
    end.

(** A collaborator call that does not touch the state. *)
Definition lift {S A : Type} (r : result A) : M S A :=
  match r with
  | Ok a => mret a
  | Err e => fail e
  end.

(** A pure step of the code under study. *)
Definition pure {S A : Type} (x : exec A) : M S A := fun s => (x, s).

(** [if err != nil { return nil, fmt.Errorf(prefix + "%w", err) }]. *)
Definition wrapping {S A : Type} (prefix : string) (m : M S A) : M S A :=
  fun s =>
    match m s with
    | (Fail e, s') => (Fail (fmt_Errorf_w prefix e), s')
    | other => other
    end.

(** ** Paged iterators (auxiliary.go) *)

Module Iterator.
Section Generated.
(** [T] is the element type ([*deliverypb.DeliveryVehicle] or
    [*deliverypb.Task]); [PageInfo] and [Resp] stand for
    [*iterator.PageInfo] and the raw page response. *)
Context {T PageInfo Resp : Type}.

(** The fields that [Next] and the [nextFunc] closure mutate. *)
Record store : Type := {
  items : list T;
  pageInfo : PageInfo;
  Response : Resp
}.

(** The iterator: its mutable fields and its closure.  [nextFunc] is a
    [func() error] closed over the iterator, so running it may change
    the fields; [None] is a nil error.  [InternalFetch], which [Next]
    never calls, is left out. *)
Record t : Type := {
  fields : store;
  nextFunc : store -> option error * store
}.

Definition set_items (l : list T) (s : store) : store :=
  {| items := l; pageInfo := pageInfo s; Response := Response s |}.

Definition with_fields (it : t) (s : store) : t :=
  {| fields := s; nextFunc := nextFunc it |}.

Definition PageInfoOf (it : t) : PageInfo := pageInfo (fields it).

(** [it.nextFunc()] as a step on the iterator. *)
Definition call_nextFunc : M t unit :=
  fun it =>
    let '(err, s) := nextFunc it (fields it) in
    match err with
    | Some e => (Fail e, with_fields it s)
    | None => (Return tt, with_fields it s)
    end.

(** [it.items[0]]: panics on an empty slice. *)
Definition index0 : M t T :=
  fun it =>
    match items (fields it) !! 0%nat with
    | Some x => (Return x, it)
    | None => panic "runtime error: index out of range [0] with length 0" it
    end.

(** [it.items = it.items[1:]]. *)
Definition drop_first : M t unit :=
  fun it => (Return tt, with_fields it (set_items (drop 1 (items (fields it))) (fields it))).

Definition Next : M t T :=
  call_nextFunc ;;
  item ← index0 ;
  drop_first ;;
  mret item.

Definition bufLen (it : t) : Z := Z.of_nat (length (items (fields it))).

Definition takeBuf : M t (list T) :=
  fun it => (Return (items (fields it)), with_fields it (set_items [] (fields it))).
End Generated.
Arguments store : clear implicits.
Arguments t : clear implicits.
End Iterator.

(** The two generated iterators are the same text at two element types. *)
Definition DeliveryVehicleIterator (DeliveryVehicle PageInfo Resp : Type) : Type :=
  Iterator.t DeliveryVehicle PageInfo Resp.

Definition TaskIterator (Task PageInfo Resp : Type) : Type :=
  Iterator.t Task PageInfo Resp.

Definition DeliveryVehicleIterator_Next {DeliveryVehicle PageInfo Resp : Type}
  : M (DeliveryVehicleIterator DeliveryVehicle PageInfo Resp) DeliveryVehicle :=
  Iterator.Next.

Definition TaskIterator_Next {Task PageInfo Resp : Type}
  : M (TaskIterator Task PageInfo Resp) Task :=
  Iterator.Next.

(** ** Impersonated ID tokens (auth/impersonate) *)

(** *** Library data the code handles *)

(** [time.Time] as nanoseconds since the epoch, [time.Duration] as
    nanoseconds. *)
Definition Time : Type := Z.
Definition Duration : Type := Z.
Definition time_Hour : Duration := 3600 * 1000000000.
Definition Time_Add (t : Time) (d : Duration) : Time := t + d.

(** [auth.Token]; the fields [Token] does not set keep their zero value. *)
Record auth_Token : Type := {
  Value : string;
  Expiry : Time
}.

(** [http.Request], with the URL kept as the string it was parsed from. *)
Record Request : Type := {
  Method : string;
  URL : string;
  Header : gmap string (list string);
  Body : string
}.

(** [req.Header.Set(key, value)], for a [key] already in canonical form
    (as ["Content-Type"] is). *)
Definition Header_Set (key value : string) (req : Request) : Request :=
  {| Method := Method req; URL := URL req;
     Header := <[key := [value]]> (Header req); Body := Body req |}.

Record Response : Type := {
  StatusCode : Z
}.

(** [*slog.Logger]: whether it records debug-level messages. *)
Record Logger : Type := {
  debugEnabled : bool
}.

Inductive LogAttr : Type :=
| internallog_HTTPRequest (req : Request) (body : string)
| internallog_HTTPResponse (resp : Response) (body : string).

Record LogRecord : Type := {
  msg : string;
  key : string;
  attr : LogAttr
}.

(** What the code can observe of and do to its surroundings: the clock,
    the requests handed to a transport (oldest first) and the debug
    records emitted (oldest first). *)
Record World : Type := {
  now : Time;
  sent : list Request;
  logged : list LogRecord
}.

(** [*http.Client] with base credentials attached: for a request and the
    world it is sent in, the response with its body or an error, and the
    time at which the exchange ends. *)
Record http_Client : Type := {
  Do : Request -> World -> result (Response * string) * Time
}.

(** Modelled from the spec: [internal.DoRequest] lives in another package
    ([auth/internal]), whose source is not part of this development; the
    spec's authenticated transport is
    [do(request) -> (response, bodyBytes, error)].  The request is put on
    the wire and the clock moves to the end of the exchange. *)
Definition internal_DoRequest (c : http_Client) (req : Request)
  : M World (Response * string) :=
  fun w =>
    let '(r, t) := Do c req w in
    let w' := {| now := t; sent := sent w ++ [req]; logged := logged w |} in
    match r with
    | Ok x => (Return x, w')
    | Err e => (Fail e, w')
    end.

Definition time_Now : M World Time := fun w => (Return (now w), w).

(** [logger.DebugContext(ctx, msg, key, attr)]. *)
Definition DebugContext (l : Logger) (m k : string) (a : LogAttr) : M World unit :=
  fun w =>
    if debugEnabled l
    then (Return tt, {| now := now w; sent := sent w;
                        logged := logged w ++ [{| msg := m; key := k; attr := a |}] |})
    else (Return tt, w).

(** *** JSON values and their compact text *)

#[warnings="-register-all"]
Inductive json : Type :=
| JNull
| JBool (b : bool)
| JString (s : string)
| JArray (l : list json)
| JObject (members : list (string * json)).

Definition dquote : string := String (Ascii.ascii_of_nat 34) EmptyString.

(** The text [encoding/json] writes, given its encoder [quote] of string
    literals.  Member names here are plain identifiers. *)
Fixpoint render (quote : string -> string) (j : json) : string :=
  match j with
  | JNull => "null"
  | JBool true => "true"
  | JBool false => "false"
  | JString s => quote s
  | JArray l =>
      "[" +:+
      (fix elems (l : list json) : string :=
         match l with
         | [] => EmptyString
         | x :: l' =>
             render quote x +:+
             match l' with [] => EmptyString | _ => "," +:+ elems l' end
         end) l +:+ "]"
  | JObject ms =>
      "{" +:+
      (fix members (ms : list (string * json)) : string :=
         match ms with
         | [] => EmptyString
         | (k, v) :: ms' =>
             dquote +:+ k +:+ dquote +:+ ":" +:+ render quote v +:+
             match ms' with [] => EmptyString | _ => "," +:+ members ms' end
         end) ms +:+ "}"
  end.

(** The first member named [k] of an object. *)
Fixpoint assoc {A : Type} (k : string) (ms : list (string * A)) : option A :=
  match ms with
  | [] => None
  | (k', v) :: ms' => if String.eqb k' k then Some v else assoc k ms'
  end.

Definition member (k : string) (j : json) : option json :=
  match j with
  | JObject ms => assoc k ms
  | _ => None
  end.

(** *** The code of the package *)

(** The two wire structs, each with its [json] struct tags. *)
Module generateIDTokenRequest.
Record t : Type := {
  Audience : string;      (* json:"audience" *)
  IncludeEmail : bool;    (* json:"includeEmail" *)
  Delegates : list string (* json:"delegates,omitempty" *)
}.

(** The value [json.Marshal] encodes: members in field order, and
    [omitempty] drops a slice of length zero. *)
Definition toJSON (r : t) : json :=
  JObject
    ([("audience", JString (Audience r));
      ("includeEmail", JBool (IncludeEmail r))]
     ++ (if bool_decide (length (Delegates r) = 0%nat) then []
         else [("delegates", JArray (JString <$> Delegates r))])).
End generateIDTokenRequest.

Module generateIDTokenResponse.
Record t : Type := {
  Token : string (* json:"token" *)
}.
End generateIDTokenResponse.

Section Impersonate.
(** [Creds] stands for [auth.Credentials] values that serve as base
    credentials. *)
Context {Creds : Type}.

(** [IDTokenOptions]. *)
Record IDTokenOptions : Type := {
  Audience : string;
  TargetPrincipal : string;
  IncludeEmail : bool;
  Delegates : list string;
  Credentials : option Creds;
  Client : option http_Client;
  OptLogger : option Logger
}.

(** [credentials.DetectOptions] and [httptransport.Options], with the
    fields the code sets. *)
Record DetectOptions : Type := {
  Scopes : list string;
  UseSelfSignedJWT : bool;
  DetectLogger : Logger
}.

Record httptransport_Options : Type := {
  TransportCredentials : option Creds;
  TransportLogger : Logger
}.

(** What the code calls and is defined elsewhere: the endpoint constant
    and the name formatter, which the package declares in another file,
    and the collaborators from other packages and from the Go library. *)
Record Env : Type := {
  iamCredentialsEndpoint : string;
  formatIAMServiceAccountName : string -> string;
  internallog_New : option Logger -> Logger;
  credentials_DetectDefault : DetectOptions -> World -> result Creds * World;
  httptransport_NewClient : httptransport_Options -> result http_Client;
  (** [url.Parse], as run by [http.NewRequestWithContext]: its error. *)
  url_Parse : string -> option error;
  (** The string-literal encoder of [json.Marshal]. *)
  json_quote : string -> string;
  (** [json.Unmarshal] into a [generateIDTokenResponse]. *)
  json_Unmarshal : string -> result generateIDTokenResponse.t
}.

Variable E : Env.

Definition validate (o : option IDTokenOptions) : exec (option error) :=
  if bool_decide (o = None :> option IDTokenOptions) then
    mret (Some (errors_New "impersonate: options must be provided"))
  else
    a ← field Audience o;
    if String.eqb a EmptyString then
      mret (Some (errors_New "impersonate: audience must be provided"))
    else
      t ← field TargetPrincipal o;
      if String.eqb t EmptyString then
        mret (Some (errors_New "impersonate: target service account must be provided"))
      else mret None.

Definition defaultScope : string := "https://www.googleapis.com/auth/cloud-platform".

Record impersonatedIDTokenProvider : Type := {
  client : http_Client;
  logger : Logger;
  targetPrincipal : string;
  audience : string;
  includeEmail : bool;
  delegates : list string
}.

(** [itp.delegates = append(itp.delegates, v)]. *)
Definition append_delegate (itp : impersonatedIDTokenProvider) (v : string)
  : impersonatedIDTokenProvider :=
  {| client := client itp; logger := logger itp;
     targetPrincipal := targetPrincipal itp; audience := audience itp;
     includeEmail := includeEmail itp; delegates := delegates itp ++ [v] |}.

(** [auth.NewCachedTokenProvider(itp, nil)], [auth.CredentialsOptions]
    and [auth.NewCredentials] as the data they are built from;
    [UniverseDomainProvider] holds the credentials whose [UniverseDomain]
    method it wraps. *)
Inductive auth_TokenProvider : Type :=
| auth_NewCachedTokenProvider (tp : impersonatedIDTokenProvider).

Record auth_CredentialsOptions : Type := {
  TokenProvider : auth_TokenProvider;
  UniverseDomainProvider : option Creds
}.

Inductive auth_Credentials : Type :=
| auth_NewCredentials (o : auth_CredentialsOptions).

Definition NewIDTokenCredentials (opts : option IDTokenOptions)
  : M World auth_Credentials :=
  err ← pure (validate opts);
  match err with
  | Some e => fail e
  | None =>
      client0 ← pure (field Client opts);
      creds0 ← pure (field Credentials opts);
      optLogger ← pure (field OptLogger opts);
      let logger := internallog_New E optLogger in
      '(client, creds) ←
        match client0 with
        | Some c => mret (c, creds0)
        | None =>
            creds ←
              match creds0 with
              | Some cr => mret (Some cr)
              | None =>
                  cr ← (fun w =>
                          match credentials_DetectDefault E
                                  {| Scopes := [defaultScope];
                                     UseSelfSignedJWT := true;
                                     DetectLogger := logger |} w with
                          | (Ok cr, w') => (Return cr, w')
                          | (Err e, w') => (Fail e, w')
                          end);
                  mret (Some cr)
              end;
            c ← lift (httptransport_NewClient E
                        {| TransportCredentials := creds;
                           TransportLogger := logger |});
            mret (c, creds)
        end;
      tp ← pure (field TargetPrincipal opts);
      aud ← pure (field Audience opts);
      ie ← pure (field IncludeEmail opts);
      let itp := {| client := client; targetPrincipal := tp; audience := aud;
                    includeEmail := ie; logger := logger; delegates := [] |} in
      ds ← pure (field Delegates opts);
      let itp :=
        fold_left
          (fun itp v => append_delegate itp (formatIAMServiceAccountName E v))
          ds itp in
      let udp := match creds with Some cr => Some cr | None => None end in
      mret (auth_NewCredentials
              {| TokenProvider := auth_NewCachedTokenProvider itp;
                 UniverseDomainProvider := udp |})
  end.

(** [json.Marshal] of a [generateIDTokenRequest]: no value of this struct
    type makes it fail. *)
Definition json_Marshal (r : generateIDTokenRequest.t) : result string :=
  Ok (render (json_quote E) (generateIDTokenRequest.toJSON r)).

(** [http.NewRequestWithContext] for a valid method (as ["POST"] is) and
    a non-nil context: it fails when the URL does not parse. *)
Definition http_NewRequestWithContext (method url body : string) : result Request :=
  match url_Parse E url with
  | Some e => Err e
  | None => Ok {| Method := method; URL := url; Header := ∅; Body := body |}
  end.

Definition Token (i : impersonatedIDTokenProvider) : M World auth_Token :=
  let genIDTokenReq :=
    {| generateIDTokenRequest.Audience := audience i;
       generateIDTokenRequest.IncludeEmail := includeEmail i;
       generateIDTokenRequest.Delegates := delegates i |} in
  bodyBytes ← wrapping "impersonate: unable to marshal request: "
                (lift (json_Marshal genIDTokenReq));
  let url := iamCredentialsEndpoint E +:+ "/v1/" +:+
             formatIAMServiceAccountName E (targetPrincipal i) +:+
             ":generateIdToken" in
  req ← wrapping "impersonate: unable to create request: "
          (lift (http_NewRequestWithContext "POST" url bodyBytes));
  let req := Header_Set "Content-Type" "application/json" req in
  DebugContext (logger i) "impersonated idtoken request" "request"
    (internallog_HTTPRequest req bodyBytes);;
  '(resp, body) ← wrapping "impersonate: unable to generate ID token: "
                    (internal_DoRequest (client i) req);
  DebugContext (logger i) "impersonated idtoken response" "response"
    (internallog_HTTPResponse resp body);;
  let c := StatusCode resp in
  if ((c <? 200) || (c >? 299)) then
    fail (errorString ("impersonate: status code " +:+ pretty c +:+ ": " +:+ body))
  else
    generateIDTokenResp ← wrapping "impersonate: unable to parse response: "
                            (lift (json_Unmarshal E body));
    t ← time_Now;
    mret {| Value := generateIDTokenResponse.Token generateIDTokenResp;
            Expiry := Time_Add t (1 * time_Hour) |}.

End Impersonate.

Arguments IDTokenOptions : clear implicits.
Arguments Env : clear implicits.
Arguments auth_Credentials : clear implicits.

(** *** What a fetch puts on the wire *)

Section Wire.
Context {Creds : Type}.
Variable E : Env Creds.
Variable i : impersonatedIDTokenProvider.

(** The provider behind the credentials that the constructor returns. *)
Definition provider_of (c : auth_Credentials Creds) : impersonatedIDTokenProvider :=
  match c with
  | auth_NewCredentials o =>
      match TokenProvider o with
      | auth_NewCachedTokenProvider tp => tp
      end
  end.

(** The URL, the body and the request that the properties below show
    [Token] to build. *)
Definition Token_url : string :=
  iamCredentialsEndpoint E +:+ "/v1/" +:+
  formatIAMServiceAccountName E (targetPrincipal i) +:+ ":generateIdToken".

Definition Token_payload : json :=
  JObject
    ([("audience", JString (audience i));
      ("includeEmail", JBool (includeEmail i))]
     ++ match delegates i with
        | [] => []
        | _ :: _ => [("delegates", JArray (JString <$> delegates i))]
        end).

Definition Token_body : string := render (json_quote E) Token_payload.

Definition Token_request : Request :=
  {| Method := "POST"; URL := Token_url;
     Header := {[ "Content-Type" := ["application/json"] ]};
     Body := Token_body |}.

(** The requests that [Token] hands to the transport when run in [w]. *)
Definition outbound (w : World) : list Request :=
  drop (length (sent w)) (sent (Token E i w).2).

(** The world in which [Token] hands its request to the transport, and
    the world in which it looks at the response. *)
Definition at_exchange (w : World) : World :=
  (DebugContext (logger i) "impersonated idtoken request" "request"
     (internallog_HTTPRequest Token_request Token_body) w).2.

Definition after_exchange (resp : Response) (body : string) (t : Time) (w : World)
  : World :=
  (DebugContext (logger i) "impersonated idtoken response" "response"
     (internallog_HTTPResponse resp body)
     {| now := t; sent := sent (at_exchange w) ++ [Token_request];
        logged := logged (at_exchange w) |}).2.

(** The credentials built from options [o], a client and base
    credentials. *)
Definition built (o : IDTokenOptions Creds) (c : http_Client) (cr : option Creds)
  : auth_Credentials Creds :=
  auth_NewCredentials
    {| TokenProvider :=
         auth_NewCachedTokenProvider
           {| client := c; logger := internallog_New E (OptLogger o);
              targetPrincipal := TargetPrincipal o; audience := Audience o;
              includeEmail := IncludeEmail o;
              delegates := formatIAMServiceAccountName E <$> Delegates o |};
       UniverseDomainProvider := cr |}.

(** The options handed to the two collaborators. *)
Definition detectOptions (o : IDTokenOptions Creds) : DetectOptions :=
  {| Scopes := [defaultScope]; UseSelfSignedJWT := true;
     DetectLogger := internallog_New E (OptLogger o) |}.

Definition transportOptions (o : IDTokenOptions Creds) (cr : Creds)
  : httptransport_Options :=
  {| TransportCredentials := Some cr;
     TransportLogger := internallog_New E (OptLogger o) |}.

(** When construction succeeds: the collaborators that had to be called
    succeeded. *)
Definition collaborators_succeed (o : IDTokenOptions Creds) (w : World) : Prop :=
  match Client o with
  | Some _ => True
  | None =>
      match Credentials o with
      | Some cr => exists cl, httptransport_NewClient E (transportOptions o cr) = Ok cl
      | None =>
          exists cr w' cl,
            credentials_DetectDefault E (detectOptions o) w = (Ok cr, w')
            /\ httptransport_NewClient E (transportOptions o cr) = Ok cl
      end
  end.

End Wire.

(** *** Sample collaborators and inputs *)

Module Sample.

(** Modelled from the spec: [formatIAMServiceAccountName] is declared in
    another file of the package, whose source is not part of this
    development.  The spec: if the identity string already matches the
    fully-qualified resource pattern, use it unchanged; otherwise wrap it
    as [projects/-/serviceAccounts/<identity>].  The pattern is read as
    [projects/<project>/serviceAccounts/<account>]. *)
Definition formatIAMServiceAccountName_spec (name : string) : string :=
  if (String.prefix "projects/" name
      && bool_decide (is_Some (String.index 9 "/serviceAccounts/" name)))%bool
  then name
  else "projects/-/serviceAccounts/" +:+ name.

(** Modelled from the spec: [iamCredentialsEndpoint] is declared in
    another file of the package, whose source is not part of this
    development; the spec calls it the fixed IAM-credentials service
    root. *)
Definition iamCredentialsEndpoint_spec : string :=
  "https://iamcredentials.googleapis.com".

(** A string-literal encoder, right for strings that need no escape. *)
Definition quote_plain (s : string) : string := dquote +:+ s +:+ dquote.

(** A decoder that accepts exactly the text [{"token":"<v>"}]. *)
Definition token_prefix : string :=
  "{" +:+ dquote +:+ "token" +:+ dquote +:+ ":" +:+ dquote.
Definition token_suffix : string := dquote +:+ "}".

Definition decode_token (body : string) : result generateIDTokenResponse.t :=
  let n := String.length body in
  let p := String.length token_prefix in
  let s := String.length token_suffix in
  if (String.prefix token_prefix body
      && bool_decide (p + s <= n)%nat
      && String.eqb (String.substring (n - s) s body) token_suffix)%bool
  then Ok {| generateIDTokenResponse.Token := String.substring p (n - p - s) body |}
  else Err (errorString "invalid character looking for beginning of value").

(** Three transports: one that issues a token a nanosecond later, one
    that denies permission, one that answers 200 with a page of HTML. *)
Definition issuing : http_Client :=
  {| Do := fun _ w =>
       (Ok ({| StatusCode := 200 |}, token_prefix +:+ "abc123" +:+ token_suffix),
        now w + 1) |}.

Definition denying : http_Client :=
  {| Do := fun _ w => (Ok ({| StatusCode := 403 |}, "permission denied"), now w + 1) |}.

Definition garbled : http_Client :=
  {| Do := fun _ w => (Ok ({| StatusCode := 200 |}, "<html></html>"), now w + 1) |}.

(** An environment with no default credentials to detect; base
    credentials are named by a string. *)
Definition env : Env string :=
  {| iamCredentialsEndpoint := iamCredentialsEndpoint_spec;
     formatIAMServiceAccountName := formatIAMServiceAccountName_spec;
     internallog_New := fun l => default {| debugEnabled := false |} l;
     credentials_DetectDefault := fun _ w =>
       (Err (errorString "credentials: could not find default credentials"), w);
     httptransport_NewClient := fun _ => Ok issuing;
     url_Parse := fun _ => None;
     json_quote := quote_plain;
     json_Unmarshal := decode_token |}.

(** The same environment with another name formatter. *)
Definition with_formatter (f : string -> string) (e : Env string) : Env string :=
  {| iamCredentialsEndpoint := iamCredentialsEndpoint e;
     formatIAMServiceAccountName := f;
     internallog_New := internallog_New e;
     credentials_DetectDefault := credentials_DetectDefault e;
     httptransport_NewClient := httptransport_NewClient e;
     url_Parse := url_Parse e;
     json_quote := json_quote e;
     json_Unmarshal := json_Unmarshal e |}.

Definition w0 : World := {| now := 1000; sent := []; logged := [] |}.

Definition opts : IDTokenOptions string :=
  {| Audience := "https://example.com";
     TargetPrincipal := "sa@example.iam.gserviceaccount.com";
     IncludeEmail := true;
     Delegates := ["b@x"; "a@y"];
     Credentials := None;
     Client := Some issuing;
     OptLogger := Some {| debugEnabled := true |} |}.

(** Valid options that leave the client and the credentials to be
    found. *)
Definition bare_opts : IDTokenOptions string :=
  {| Audience := "https://example.com";
     TargetPrincipal := "sa@example.iam.gserviceaccount.com";
     IncludeEmail := false;
     Delegates := [];
     Credentials := None;
     Client := None;
     OptLogger := None |}.

Definition provider_with (c : http_Client) : impersonatedIDTokenProvider :=
  {| client := c; logger := {| debugEnabled := true |};
     targetPrincipal := "sa@example.iam.gserviceaccount.com";
     audience := "https://example.com"; includeEmail := true;
     delegates := ["projects/-/serviceAccounts/b@x"; "projects/-/serviceAccounts/a@y"] |}.

(** An iterator over numbers whose [nextFunc] finds the buffer filled. *)
Definition numbers : Iterator.t nat unit unit :=
  {| Iterator.fields := {| Iterator.items := [4; 5; 6]%nat;
                           Iterator.pageInfo := tt; Iterator.Response := tt |};
     Iterator.nextFunc := fun s => (None, s) |}.

(** An iterator whose [nextFunc] reports no error on an empty buffer. *)
Definition drained : Iterator.t nat unit unit :=
  {| Iterator.fields := {| Iterator.items := [];
                           Iterator.pageInfo := tt; Iterator.Response := tt |};
     Iterator.nextFunc := fun s => (None, s) |}.

End Sample.

(** *** Callers and further samples *)

(** The provider [i] with another logger. *)
Definition with_logger (l : Logger) (i : impersonatedIDTokenProvider)
  : impersonatedIDTokenProvider :=
  {| client := client i; logger := l; targetPrincipal := targetPrincipal i;
     audience := audience i; includeEmail := includeEmail i;
     delegates := delegates i |}.

(** The world after [n] successive fetches over one provider, whatever
    each of them returned. *)
Fixpoint fetches {Creds : Type} (E : Env Creds) (i : impersonatedIDTokenProvider)
    (n : nat) (w : World) : World :=
  match n with
  | O => w
  | S n' => fetches E i n' (Token E i w).2
  end.

(** The [UniverseDomainProvider] of constructed credentials. *)
Definition universe_of {Creds : Type} (c : auth_Credentials Creds) : option Creds :=
  match c with
  | auth_NewCredentials o => UniverseDomainProvider o
  end.

(** [k] successive calls of [Next], the items collected in call order;
    the first error or panic ends the run. *)
Fixpoint NextN {T PageInfo Resp : Type} (k : nat)
  : M (Iterator.t T PageInfo Resp) (list T) :=
  match k with
  | O => mret []
  | S k' => x ← Iterator.Next; xs ← NextN k'; mret (x :: xs)
  end.

(** A [nextFunc] that has nothing to do while items are buffered: it
    returns a nil error and leaves the fields alone. *)
Definition idle_when_buffered {T PageInfo Resp : Type}
    (it : Iterator.t T PageInfo Resp) : Prop :=
  forall s, Iterator.items s <> [] -> Iterator.nextFunc it s = (None, s).

(** A transport blind to the debug log: its answer depends on the world
    only through the clock and the requests sent so far. *)
Definition blind_to_log (c : http_Client) : Prop :=
  forall req w1 w2, now w1 = now w2 -> sent w1 = sent w2 -> Do c req w1 = Do c req w2.

Module Scenario.

(** A transport that cannot connect. *)
Definition offline : http_Client :=
  {| Do := fun _ w => (Err (errorString "dial tcp: connection refused"), now w + 5) |}.

(** [Sample.env] where no URL parses. *)
Definition env_bad_url : Env string :=
  {| iamCredentialsEndpoint := iamCredentialsEndpoint Sample.env;
     formatIAMServiceAccountName := formatIAMServiceAccountName Sample.env;
     internallog_New := internallog_New Sample.env;
     credentials_DetectDefault := credentials_DetectDefault Sample.env;
     httptransport_NewClient := httptransport_NewClient Sample.env;
     url_Parse := fun _ => Some (errorString "net/url: invalid control character in URL");
     json_quote := json_quote Sample.env;
     json_Unmarshal := json_Unmarshal Sample.env |}.

(** [Sample.env] where default credentials named ["adc"] are found, at
    the cost of one clock tick. *)
Definition env_detecting : Env string :=
  {| iamCredentialsEndpoint := iamCredentialsEndpoint Sample.env;
     formatIAMServiceAccountName := formatIAMServiceAccountName Sample.env;
     internallog_New := internallog_New Sample.env;
     credentials_DetectDefault := fun _ w =>
       (Ok "adc", {| now := now w + 1; sent := sent w; logged := logged w |});
     httptransport_NewClient := httptransport_NewClient Sample.env;
     url_Parse := url_Parse Sample.env;
     json_quote := json_quote Sample.env;
     json_Unmarshal := json_Unmarshal Sample.env |}.

(** [Sample.env] where no transport can be built. *)
Definition env_no_transport : Env string :=
  {| iamCredentialsEndpoint := iamCredentialsEndpoint Sample.env;
     formatIAMServiceAccountName := formatIAMServiceAccountName Sample.env;
     internallog_New := internallog_New Sample.env;
     credentials_DetectDefault := credentials_DetectDefault Sample.env;
     httptransport_NewClient := fun _ =>
       Err (errorString "httptransport: WithCredentials is incompatible with WithHTTPClient");
     url_Parse := url_Parse Sample.env;
     json_quote := json_quote Sample.env;
     json_Unmarshal := json_Unmarshal Sample.env |}.

(** Valid options that bring base credentials and no client. *)
Definition opts_with_credentials : IDTokenOptions string :=
  {| Audience := "https://example.com";
     TargetPrincipal := "sa@example.iam.gserviceaccount.com";
     IncludeEmail := false;
     Delegates := ["b@x"];
     Credentials := Some "base";
     Client := None;
     OptLogger := None |}.

Definition quiet : Logger := {| debugEnabled := false |}.

(** An iterator whose [nextFunc] reports the end of the stream. *)
Definition done : Iterator.t nat unit unit :=
  {| Iterator.fields := {| Iterator.items := [];
                           Iterator.pageInfo := tt; Iterator.Response := tt |};
     Iterator.nextFunc := fun s => (Some (errorString "no more items in iterator"), s) |}.

End Scenario.

Module Decoding.

(** A decoder that agrees with [json.Unmarshal] into a
    [generateIDTokenResponse] on the bodies the instances use: [null] and
    [{}], which leave the struct at its zero value and report no error;
    the compact object with a [token] string; the empty body; and a body
    whose first byte cannot begin a JSON value. *)
Definition decode_like_go (body : string) : result generateIDTokenResponse.t :=
  if (String.eqb body "null" || String.eqb body "{}")%bool then
    Ok {| generateIDTokenResponse.Token := EmptyString |}
  else
    match Sample.decode_token body with
    | Ok g => Ok g
    | Err _ =>
        match body with
        | EmptyString => Err (errorString "unexpected end of JSON input")
        | String c _ =>
            Err (errorString ("invalid character '" +:+ String c EmptyString
                              +:+ "' looking for beginning of value"))
        end
    end.

(** [Sample.env] with that decoder. *)
Definition env : Env string :=
  {| iamCredentialsEndpoint := iamCredentialsEndpoint Sample.env;
     formatIAMServiceAccountName := formatIAMServiceAccountName Sample.env;
     internallog_New := internallog_New Sample.env;
     credentials_DetectDefault := credentials_DetectDefault Sample.env;
     httptransport_NewClient := httptransport_NewClient Sample.env;
     url_Parse := url_Parse Sample.env;
     json_quote := json_quote Sample.env;
     json_Unmarshal := decode_like_go |}.

(** Transports that answer 200 with the body [{}] and with the body
    [null]. *)
Definition empty_object : http_Client :=
  {| Do := fun _ w => (Ok ({| StatusCode := 200 |}, "{}"), now w + 1) |}.

Definition null_body : http_Client :=
  {| Do := fun _ w => (Ok ({| StatusCode := 200 |}, "null"), now w + 1) |}.

End Decoding.

(** ** Properties *)

(** *** The monad *)

Lemma bind_Return {S A B : Type} (m : M S A) (k : A -> M S B) s a s' :
  m s = (Return a, s') -> (m ≫= k) s = k a s'.
Proof. intros H. unfold mbind, M_bind. now rewrite H. Qed.

Lemma bind_Fail {S A B : Type} (m : M S A) (k : A -> M S B) s e s' :
  m s = (Fail e, s') -> (m ≫= k) s = (Fail e, s').
Proof. intros H. unfold mbind, M_bind. now rewrite H. Qed.

Lemma wrapping_lift_Ok {S A : Type} (prefix : string) (a : A) (s : S) :
  wrapping prefix (lift (Ok a)) s = (Return a, s).
Proof. reflexivity. Qed.

Lemma wrapping_lift_Err {S A : Type} (prefix : string) (e : error) (s : S) :
  wrapping prefix (lift (Err e : result A)) s = (Fail (fmt_Errorf_w prefix e), s).
Proof. reflexivity. Qed.

Lemma status_in_range (c : Z) :
  ((c <? 200) || (c >? 299)) = false <-> 200 <= c <= 299.
Proof.
  rewrite orb_false_iff, Z.gtb_ltb, !Z.ltb_ge. lia.
Qed.

Lemma status_out_of_range (c : Z) :
  ((c <? 200) || (c >? 299)) = true <-> c < 200 \/ 299 < c.
Proof.
  rewrite orb_true_iff, Z.gtb_ltb, !Z.ltb_lt. lia.
Qed.

Lemma contains_intro (pre sub post : string) : contains (pre +:+ sub +:+ post) sub.
Proof. now exists pre, post. Qed.

Lemma append_EmptyString_r (s : string) : s +:+ EmptyString = s.
Proof.
  induction s as [|c s IH]; [reflexivity |].
  change (String c (s +:+ EmptyString) = String c s). now f_equal.
Qed.

Lemma append_assoc (a b c : string) : (a +:+ b) +:+ c = a +:+ (b +:+ c).
Proof.
  induction a as [|x a IH]; [reflexivity |].
  change (String x ((a +:+ b) +:+ c) = String x (a +:+ (b +:+ c))). now f_equal.
Qed.

Lemma length_append (a b : string) :
  String.length (a +:+ b) = (String.length a + String.length b)%nat.
Proof.
  induction a as [|x a IH]; [reflexivity |].
  change (S (String.length (a +:+ b)) = S (String.length a + String.length b)).
  now f_equal.
Qed.

Lemma contains_suffix (pre sub : string) : contains (pre +:+ sub) sub.
Proof. exists pre, EmptyString. now rewrite append_EmptyString_r. Qed.

Lemma contains_tail (a b c sub : string) : contains (a +:+ b +:+ c +:+ sub) sub.
Proof. rewrite <- !append_assoc. apply contains_suffix. Qed.

Section TokenFacts.
Context {Creds : Type}.
Variable E : Env Creds.
Variable i : impersonatedIDTokenProvider.

Lemma toJSON_payload :
  generateIDTokenRequest.toJSON
    {| generateIDTokenRequest.Audience := audience i;
       generateIDTokenRequest.IncludeEmail := includeEmail i;
       generateIDTokenRequest.Delegates := delegates i |}
  = Token_payload i.
Proof.
  unfold generateIDTokenRequest.toJSON, Token_payload. simpl.
  destruct (delegates i); reflexivity.
Qed.

Lemma Header_Set_fresh m u b :
  Header_Set "Content-Type" "application/json"
    {| Method := m; URL := u; Header := ∅; Body := b |}
  = {| Method := m; URL := u;
       Header := {[ "Content-Type" := ["application/json"] ]}; Body := b |}.
Proof. unfold Header_Set. simpl. now rewrite insert_empty. Qed.

Lemma DebugContext_Return l m k a w :
  DebugContext l m k a w = (Return tt, (DebugContext l m k a w).2).
Proof. unfold DebugContext. now destruct (debugEnabled l). Qed.

Lemma DebugContext_now l m k a w : now (DebugContext l m k a w).2 = now w.
Proof. unfold DebugContext. now destruct (debugEnabled l). Qed.

Lemma DebugContext_sent l m k a w : sent (DebugContext l m k a w).2 = sent w.
Proof. unfold DebugContext. now destruct (debugEnabled l). Qed.

Lemma now_after_exchange resp body t w : now (after_exchange E i resp body t w) = t.
Proof. unfold after_exchange. now rewrite DebugContext_now. Qed.

Lemma sent_at_exchange w : sent (at_exchange E i w) = sent w.
Proof. unfold at_exchange. now rewrite DebugContext_sent. Qed.

Lemma sent_after_exchange resp body t w :
  sent (after_exchange E i resp body t w) = sent w ++ [Token_request E i].
Proof.
  unfold after_exchange. rewrite DebugContext_sent. simpl.
  now rewrite sent_at_exchange.
Qed.

Lemma marshal_payload :
  json_Marshal E
    {| generateIDTokenRequest.Audience := audience i;
       generateIDTokenRequest.IncludeEmail := includeEmail i;
       generateIDTokenRequest.Delegates := delegates i |}
  = Ok (Token_body E i).
Proof. unfold json_Marshal. now rewrite toJSON_payload. Qed.

Lemma NewRequest_Header_Set :
  url_Parse E (Token_url E i) = None ->
  http_NewRequestWithContext E "POST" (Token_url E i) (Token_body E i)
  = Ok {| Method := "POST"; URL := Token_url E i; Header := ∅; Body := Token_body E i |}.
Proof. intros H. unfold http_NewRequestWithContext. now rewrite H. Qed.

(** A failure before the exchange leaves the world as it was. *)
Lemma Token_no_request w e :
  url_Parse E (Token_url E i) = Some e ->
  Token E i w = (Fail (fmt_Errorf_w "impersonate: unable to create request: " e), w).
Proof.
  intros Hurl. unfold Token. rewrite marshal_payload.
  erewrite bind_Return by apply wrapping_lift_Ok.
  fold (Token_url E i). unfold http_NewRequestWithContext. rewrite Hurl.
  erewrite bind_Fail by apply wrapping_lift_Err. reflexivity.
Qed.

(** Once the request exists, [Token] is decided by the exchange. *)
Lemma Token_exchange w r t :
  url_Parse E (Token_url E i) = None ->
  Do (client i) (Token_request E i) (at_exchange E i w) = (r, t) ->
  Token E i w =
    match r with
    | Err e =>
        (Fail (fmt_Errorf_w "impersonate: unable to generate ID token: " e),
         {| now := t; sent := sent (at_exchange E i w) ++ [Token_request E i];
            logged := logged (at_exchange E i w) |})
    | Ok (resp, body) =>
        let c := StatusCode resp in
        if ((c <? 200) || (c >? 299)) then
          (Fail (errorString ("impersonate: status code " +:+ pretty c +:+ ": " +:+ body)),
           after_exchange E i resp body t w)
        else
          match json_Unmarshal E body with
          | Err e =>
              (Fail (fmt_Errorf_w "impersonate: unable to parse response: " e),
               after_exchange E i resp body t w)
          | Ok g =>
              (Return {| Value := generateIDTokenResponse.Token g;
                         Expiry := t + 3600000000000 |},
               after_exchange E i resp body t w)
          end
    end.
Proof.
  intros Hurl Hdo. unfold Token. rewrite marshal_payload.
  erewrite bind_Return by apply wrapping_lift_Ok.
  fold (Token_url E i). rewrite (NewRequest_Header_Set Hurl).
  erewrite bind_Return by apply wrapping_lift_Ok.
  rewrite Header_Set_fresh. fold (Token_request E i).
  erewrite bind_Return by apply DebugContext_Return.
  fold (at_exchange E i w).
  destruct r as [[resp body]|e].
  - erewrite bind_Return
      by (unfold wrapping, internal_DoRequest; rewrite Hdo; reflexivity).
    cbv beta iota.
    erewrite bind_Return by apply DebugContext_Return.
    fold (after_exchange E i resp body t w). cbv zeta.
    destruct ((StatusCode resp <? 200) || (StatusCode resp >? 299));
      [reflexivity |].
    destruct (json_Unmarshal E body) as [g|e].
    + erewrite bind_Return by apply wrapping_lift_Ok.
      unfold mbind, M_bind, time_Now, mret, M_ret, Time_Add, time_Hour.
      rewrite now_after_exchange. reflexivity.
    + erewrite bind_Fail by apply wrapping_lift_Err. reflexivity.
  - erewrite bind_Fail
      by (unfold wrapping, internal_DoRequest; rewrite Hdo; reflexivity).
    reflexivity.
Qed.
(** Every run of [Token] puts its one request on the wire, unless the
    request could not be created. *)
Lemma outbound_Token w :
  outbound E i w =
    match url_Parse E (Token_url E i) with
    | None => [Token_request E i]
    | Some _ => []
    end.
Proof.
  unfold outbound. destruct (url_Parse E (Token_url E i)) as [e|] eqn:Hurl.
  - rewrite (Token_no_request w _ Hurl). simpl. apply drop_all.
  - destruct (Do (client i) (Token_request E i) (at_exchange E i w)) as [r t] eqn:Hdo.
    rewrite (Token_exchange w _ _ Hurl Hdo).
    assert (Hdrop : forall (l : list Request) r,
               drop (length l) (l ++ [r]) = [r]).
    { intros l r0. rewrite drop_app_length. reflexivity. }
    destruct r as [[resp body]|e]; cbv zeta.
    + destruct ((StatusCode resp <? 200) || (StatusCode resp >? 299));
        [| destruct (json_Unmarshal E body)];
        simpl; rewrite sent_after_exchange; apply Hdrop.
    + simpl. rewrite sent_at_exchange. apply Hdrop.
Qed.

(** A token comes only out of a completed exchange with a 2xx status
    whose body [json.Unmarshal] accepted. *)
Lemma Token_Return_inv w tok w' :
  Token E i w = (Return tok, w') ->
  exists resp body t g,
    Do (client i) (Token_request E i) (at_exchange E i w) = (Ok (resp, body), t)
    /\ 200 <= StatusCode resp <= 299
    /\ json_Unmarshal E body = Ok g
    /\ tok = {| Value := generateIDTokenResponse.Token g;
                Expiry := t + 3600 * 1000000000 |}.
Proof.
  intros H. destruct (url_Parse E (Token_url E i)) as [e|] eqn:Hurl.
  { rewrite (Token_no_request w _ Hurl) in H. discriminate. }
  destruct (Do (client i) (Token_request E i) (at_exchange E i w)) as [r t] eqn:Hdo.
  rewrite (Token_exchange w _ _ Hurl Hdo) in H.
  destruct r as [[resp body]|e]; [| discriminate]. cbv zeta in H.
  destruct ((StatusCode resp <? 200) || (StatusCode resp >? 299)) eqn:Hc;
    [discriminate |].
  destruct (json_Unmarshal E body) as [g|e] eqn:Hg; [| discriminate].
  apply status_in_range in Hc.
  injection H as <- _.
  exists resp, body, t, g. repeat split; lia || assumption || reflexivity.
Qed.

(** C1: when the exchange completes with a status in [200,299] and the
    body decodes, [Token] returns, without error, the token whose value is
    the decoded [token] field and whose expiry is the clock reading taken
    after the decode plus one hour (3600 * 10^9 ns). *)
Theorem Token_success_value_and_expiry w resp body t g :
  url_Parse E (Token_url E i) = None ->
  Do (client i) (Token_request E i) (at_exchange E i w) = (Ok (resp, body), t) ->
  200 <= StatusCode resp <= 299 ->
  json_Unmarshal E body = Ok g ->
  exists w',
    Token E i w = (Return {| Value := generateIDTokenResponse.Token g;
                             Expiry := now w' + 3600 * 1000000000 |}, w')
    /\ now w' = t.
Proof.
  intros Hurl Hdo Hc Hg. exists (after_exchange E i resp body t w).
  rewrite (Token_exchange w _ _ Hurl Hdo). cbv zeta.
  replace ((StatusCode resp <? 200) || (StatusCode resp >? 299))
    with false by (symmetry; now apply status_in_range).
  rewrite Hg, now_after_exchange. split; reflexivity.
Qed.

(** C3: when the exchange completes with a status outside [200,299],
    [Token] returns no token but an error whose message is
    ["impersonate: status code <code>: <body>"], so it contains the status
    code in decimal and the raw response body. *)
Theorem Token_status_error w resp body t :
  url_Parse E (Token_url E i) = None ->
  Do (client i) (Token_request E i) (at_exchange E i w) = (Ok (resp, body), t) ->
  StatusCode resp < 200 \/ 299 < StatusCode resp ->
  exists e w',
    Token E i w = (Fail e, w')
    /\ Error e = "impersonate: status code " +:+ pretty (StatusCode resp) +:+ ": " +:+ body
    /\ contains (Error e) (pretty (StatusCode resp))
    /\ contains (Error e) body.
Proof.
  intros Hurl Hdo Hc.
  eexists _, (after_exchange E i resp body t w).
  rewrite (Token_exchange w _ _ Hurl Hdo). cbv zeta.
  replace ((StatusCode resp <? 200) || (StatusCode resp >? 299))
    with true by (symmetry; now apply status_out_of_range).
  split; [reflexivity |]. split; [reflexivity |]. split.
  - apply contains_intro.
  - apply contains_tail.
Qed.

(** C6 (as amended): when the exchange completes with a status in
    [200,299], the decoder decides.  If [json.Unmarshal] rejects the body,
    [Token] fails with the error
    ["impersonate: unable to parse response: ..."] wrapping the decoder's
    error and returns no token.  If it accepts the body, [Token] returns a
    token whose value is the decoded [token] field, whatever that field
    is: the code does not check that the body had such a member.  A token
    comes only from a body the decoder accepted. *)
Theorem Token_decoder_decides w resp body t :
  url_Parse E (Token_url E i) = None ->
  Do (client i) (Token_request E i) (at_exchange E i w) = (Ok (resp, body), t) ->
  200 <= StatusCode resp <= 299 ->
  (forall e,
     json_Unmarshal E body = Err e ->
     (exists w',
        Token E i w
        = (Fail (fmt_Errorf_w "impersonate: unable to parse response: " e), w'))
     /\ (forall tok w', Token E i w <> (Return tok, w')))
  /\ (forall g,
        json_Unmarshal E body = Ok g ->
        exists w',
          Token E i w = (Return {| Value := generateIDTokenResponse.Token g;
                                   Expiry := t + 3600 * 1000000000 |}, w'))
  /\ (forall tok w',
        Token E i w = (Return tok, w') ->
        exists g, json_Unmarshal E body = Ok g
                  /\ Value tok = generateIDTokenResponse.Token g).
Proof.
  intros Hurl Hdo Hc.
  assert (Hrun : Token E i w =
                 match json_Unmarshal E body with
                 | Err e =>
                     (Fail (fmt_Errorf_w "impersonate: unable to parse response: " e),
                      after_exchange E i resp body t w)
                 | Ok g =>
                     (Return {| Value := generateIDTokenResponse.Token g;
                                Expiry := t + 3600000000000 |},
                      after_exchange E i resp body t w)
                 end).
  { rewrite (Token_exchange w _ _ Hurl Hdo). cbv zeta.
    replace ((StatusCode resp <? 200) || (StatusCode resp >? 299))
      with false by (symmetry; now apply status_in_range).
    reflexivity. }
  split; [| split].
  - intros e Hg. rewrite Hrun, Hg. split; [eauto |]. intros tok w' H. discriminate.
  - intros g Hg. rewrite Hrun, Hg. eauto.
  - intros tok w' H. rewrite Hrun in H.
    destruct (json_Unmarshal E body) as [g|e]; [| discriminate].
    injection H as <- _. eauto.
Qed.

(** C7: the requests a fetch hands to the transport are at most one (one
    exactly once the request could be created), and each is a POST to
    [<iamCredentialsEndpoint>/v1/<formatted target principal>:generateIdToken]
    carrying the header [Content-Type: application/json]. *)
Theorem Token_outbound_request w :
  Forall (fun req =>
            Method req = "POST"
            /\ URL req = iamCredentialsEndpoint E +:+ "/v1/" +:+
                         formatIAMServiceAccountName E (targetPrincipal i) +:+
                         ":generateIdToken"
            /\ Header req !! "Content-Type" = Some ["application/json"])
         (outbound E i w)
  /\ length (outbound E i w)
     = match url_Parse E (Token_url E i) with None => 1%nat | Some _ => 0%nat end.
Proof.
  rewrite outbound_Token. destruct (url_Parse E (Token_url E i)); split;
    try reflexivity; [constructor |].
  repeat constructor.
Qed.

End TokenFacts.

(** *** The text of the request body *)

(** The text of an array of strings: the quoted items, comma-separated,
    in order. *)
Lemma render_strings (q : string -> string) (l : list string) :
  render q (JArray (JString <$> l)) = "[" +:+ String.concat "," (q <$> l) +:+ "]".
Proof.
  cbn. f_equal. f_equal.
  induction l as [|x l IH]; [reflexivity |].
  cbn. destruct l as [|y l].
  - cbn. apply append_EmptyString_r.
  - rewrite <- IH. reflexivity.
Qed.

(** The body [Token] marshals, written out. *)
Lemma Token_body_text {Creds : Type} (E : Env Creds) (i : impersonatedIDTokenProvider) :
  Token_body E i =
    "{" +:+ dquote +:+ "audience" +:+ dquote +:+ ":" +:+ json_quote E (audience i)
    +:+ "," +:+ dquote +:+ "includeEmail" +:+ dquote +:+ ":"
    +:+ (if includeEmail i then "true" else "false")
    +:+ match delegates i with
        | [] => EmptyString
        | _ :: _ =>
            "," +:+ dquote +:+ "delegates" +:+ dquote +:+ ":" +:+ "["
            +:+ String.concat "," (json_quote E <$> delegates i) +:+ "]"
        end
    +:+ "}".
Proof.
  unfold Token_body, Token_payload.
  destruct (delegates i) as [|d ds] eqn:Hd.
  - cbn. destruct (includeEmail i); rewrite !append_assoc; reflexivity.
  - pose proof (render_strings (json_quote E) (d :: ds)) as Har.
    cbn in Har |- *. rewrite Har. rewrite !append_assoc. reflexivity.
Qed.

(** *** Construction *)

Section Construction.
Context {Creds : Type}.
Variable E : Env Creds.

Lemma validate_nil :
  validate (None : option (IDTokenOptions Creds))
  = Return (Some (errors_New "impersonate: options must be provided")).
Proof. reflexivity. Qed.

Lemma validate_Some (o : IDTokenOptions Creds) :
  validate (Some o) =
    Return (if String.eqb (Audience o) EmptyString then
              Some (errors_New "impersonate: audience must be provided")
            else if String.eqb (TargetPrincipal o) EmptyString then
              Some (errors_New "impersonate: target service account must be provided")
            else None).
Proof.
  unfold validate. simpl.
  destruct (String.eqb (Audience o) EmptyString); [reflexivity |].
  destruct (String.eqb (TargetPrincipal o) EmptyString); reflexivity.
Qed.

(** The loop over [opts.Delegates] appends the formatted names in order. *)
Lemma fold_append_delegate (f : string -> string) (ds : list string) itp :
  fold_left (fun itp v => append_delegate itp (f v)) ds itp
  = {| client := client itp; logger := logger itp;
       targetPrincipal := targetPrincipal itp; audience := audience itp;
       includeEmail := includeEmail itp;
       delegates := delegates itp ++ (f <$> ds) |}.
Proof.
  revert itp. induction ds as [|d ds IH]; intros itp; simpl.
  - rewrite app_nil_r. now destruct itp.
  - rewrite IH. simpl. now rewrite <- app_assoc.
Qed.


Lemma New_invalid (o : IDTokenOptions Creds) w e :
  validate (Some o) = Return (Some e) ->
  NewIDTokenCredentials E (Some o) w = (Fail e, w).
Proof.
  intros H. unfold NewIDTokenCredentials.
  erewrite bind_Return by (unfold pure; rewrite H; reflexivity).
  reflexivity.
Qed.

Lemma New_valid (o : IDTokenOptions Creds) w :
  validate (Some o) = Return None ->
  NewIDTokenCredentials E (Some o) w =
    match Client o with
    | Some c => (Return (built E o c (Credentials o)), w)
    | None =>
        match Credentials o with
        | Some cr =>
            match httptransport_NewClient E (transportOptions E o cr) with
            | Ok c => (Return (built E o c (Some cr)), w)
            | Err e => (Fail e, w)
            end
        | None =>
            match credentials_DetectDefault E (detectOptions E o) w with
            | (Ok cr, w') =>
                match httptransport_NewClient E (transportOptions E o cr) with
                | Ok c => (Return (built E o c (Some cr)), w')
                | Err e => (Fail e, w')
                end
            | (Err e, w') => (Fail e, w')
            end
        end
    end.
Proof.
  intros H. unfold NewIDTokenCredentials.
  erewrite bind_Return by (unfold pure; rewrite H; reflexivity).
  unfold built, transportOptions, detectOptions.
  unfold mbind, M_bind, pure, mret, M_ret, field. cbv beta iota.
  destruct (Client o) as [c|]; cbv beta iota.
  { rewrite fold_append_delegate. simpl. now destruct (Credentials o). }
  destruct (Credentials o) as [cr|]; cbv beta iota.
  { destruct (httptransport_NewClient E _) as [c|e]; simpl; [| reflexivity].
    now rewrite fold_append_delegate. }
  destruct (credentials_DetectDefault E _ w) as [[cr|e] w']; [| reflexivity].
  destruct (httptransport_NewClient E _) as [c|e]; simpl; [| reflexivity].
  now rewrite fold_append_delegate.
Qed.
End Construction.


Section ConstructionFacts.
Context {Creds : Type}.
Variable E : Env Creds.

Lemma validate_valid (o : IDTokenOptions Creds) :
  Audience o <> EmptyString -> TargetPrincipal o <> EmptyString ->
  validate (Some o) = Return None.
Proof.
  intros Ha Ht. rewrite validate_Some.
  apply String.eqb_neq in Ha, Ht. now rewrite Ha, Ht.
Qed.

Lemma validate_total (o : option (IDTokenOptions Creds)) :
  exists r, validate o = Return r.
Proof.
  destruct o as [o|]; [rewrite validate_Some | rewrite validate_nil]; eauto.
Qed.

(** Whatever the constructor returns was built from the options as
    given: target principal as supplied, delegates formatted in order. *)
Lemma New_Return_built (o : IDTokenOptions Creds) w c w' :
  NewIDTokenCredentials E (Some o) w = (Return c, w') ->
  exists cl cr, c = built E o cl cr.
Proof.
  intros H. destruct (validate_total (Some o)) as [[e|] Hv].
  { rewrite (New_invalid E o w e Hv) in H. discriminate. }
  rewrite (New_valid E o w Hv) in H.
  destruct (Client o) as [cl|].
  { injection H as <- _. eauto. }
  destruct (Credentials o) as [cr|].
  { destruct (httptransport_NewClient E _) as [cl|e]; [| discriminate].
    injection H as <- _. eauto. }
  destruct (credentials_DetectDefault E _ w) as [[cr|e] w1]; [| discriminate].
  destruct (httptransport_NewClient E _) as [cl|e]; [| discriminate].
  injection H as <- _. eauto.
Qed.


(** C2 (as amended): construction fails with a validation error, the
    world untouched, when [Audience] is empty (the audience error) or
    [TargetPrincipal] is empty (the target error, the audience being
    checked first).  With both non-empty, validation passes, and
    construction succeeds exactly when a client was supplied or the
    collaborators it then calls (credential detection when no credentials
    were supplied, then transport construction) succeed; otherwise it
    returns the error of the collaborator that failed, as that
    collaborator gave it. *)
Theorem NewIDTokenCredentials_validation (o : IDTokenOptions Creds) (w : World) :
  (Audience o = EmptyString ->
   NewIDTokenCredentials E (Some o) w
   = (Fail (errors_New "impersonate: audience must be provided"), w))
  /\ (Audience o <> EmptyString -> TargetPrincipal o = EmptyString ->
      NewIDTokenCredentials E (Some o) w
      = (Fail (errors_New "impersonate: target service account must be provided"), w))
  /\ (Audience o <> EmptyString /\ TargetPrincipal o <> EmptyString ->
      validate (Some o) = Return None
      /\ ((exists c w', NewIDTokenCredentials E (Some o) w = (Return c, w'))
          <-> collaborators_succeed E o w)
      /\ (forall e w',
            Client o = None -> Credentials o = None ->
            credentials_DetectDefault E (detectOptions E o) w = (Err e, w') ->
            NewIDTokenCredentials E (Some o) w = (Fail e, w'))
      /\ (forall cr w' e,
            Client o = None -> Credentials o = None ->
            credentials_DetectDefault E (detectOptions E o) w = (Ok cr, w') ->
            httptransport_NewClient E (transportOptions E o cr) = Err e ->
            NewIDTokenCredentials E (Some o) w = (Fail e, w'))
      /\ (forall cr e,
            Client o = None -> Credentials o = Some cr ->
            httptransport_NewClient E (transportOptions E o cr) = Err e ->
            NewIDTokenCredentials E (Some o) w = (Fail e, w))).
Proof.
  split; [| split].
  - intros Ha. apply New_invalid. rewrite validate_Some, Ha. reflexivity.
  - intros Ha Ht. apply New_invalid. rewrite validate_Some, Ht.
    apply String.eqb_neq in Ha. now rewrite Ha.
  - intros [Ha Ht]. pose proof (validate_valid o Ha Ht) as Hv.
    split; [exact Hv |].
    rewrite (New_valid E o w Hv). unfold collaborators_succeed.
    destruct (Client o) as [cl|].
    { split; [split; eauto |]. repeat split; intros; discriminate. }
    destruct (Credentials o) as [cr|].
    + split; [| split; [| split]].
      * destruct (httptransport_NewClient E _) as [cl|e]; split.
        -- eauto.
        -- eauto.
        -- intros (c & w' & H). discriminate.
        -- intros (cl & H). discriminate.
      * intros; discriminate.
      * intros; discriminate.
      * intros cr' e _ Hcr Hcl. injection Hcr as <-. now rewrite Hcl.
    + split; [| split; [| split]].
      * destruct (credentials_DetectDefault E _ w) as [[cr|e] w1].
        -- destruct (httptransport_NewClient E _) as [cl|e] eqn:Hcl; split.
           ++ eauto.
           ++ eauto.
           ++ intros (c & w' & H). discriminate.
           ++ intros (cr' & w' & cl & H1 & H2). injection H1 as <- _. congruence.
        -- split.
           ++ intros (c & w' & H). discriminate.
           ++ intros (cr' & w' & cl & H1 & _). discriminate.
      * intros e w' _ _ Hd. now rewrite Hd.
      * intros cr w' e _ _ Hd Hcl. now rewrite Hd, Hcl.
      * intros; discriminate.
Qed.

(** C9: with a nil options pointer, [validate] returns the error
    ["impersonate: options must be provided"] and the constructor returns
    it without touching anything; neither [validate] nor the constructor
    panics on any options pointer, nil included. *)
Theorem NewIDTokenCredentials_nil_options (w : World) :
  validate (None : option (IDTokenOptions Creds))
    = Return (Some (errors_New "impersonate: options must be provided"))
  /\ NewIDTokenCredentials E None w
     = (Fail (errors_New "impersonate: options must be provided"), w)
  /\ (forall (opts : option (IDTokenOptions Creds)) msg, validate opts <> Panic msg)
  /\ (forall opts w0 msg w', NewIDTokenCredentials E opts w0 <> (Panic msg, w')).
Proof.
  split; [reflexivity |]. split; [reflexivity |]. split.
  - intros opts msg H. destruct (validate_total opts) as [r Hr]. congruence.
  - intros [o|] w0 msg w' H; [| discriminate].
    destruct (validate_total (Some o)) as [[e|] Hv].
    { rewrite (New_invalid E o w0 e Hv) in H. discriminate. }
    rewrite (New_valid E o w0 Hv) in H.
    destruct (Client o); [discriminate |].
    destruct (Credentials o).
    { destruct (httptransport_NewClient E _); discriminate. }
    destruct (credentials_DetectDefault E _ w0) as [[cr|e] w1]; [| discriminate].
    destruct (httptransport_NewClient E _); discriminate.
Qed.

(** C4: for the provider that construction returns, a fetch hands one
    request to the transport (none when the request cannot be created),
    and its body is the JSON object text with the member [audience] (the
    configured audience, quoted), the member [includeEmail] (the
    configured flag) and, unless the configured delegate list is empty,
    the member [delegates]: the configured delegates, each formatted and
    quoted, comma-separated in the configured order.  With an empty list
    the text has no [delegates] member. *)
Theorem Token_request_body (o : IDTokenOptions Creds) w c w1 :
  NewIDTokenCredentials E (Some o) w = (Return c, w1) ->
  forall w2,
    Forall (fun req =>
              Body req =
                "{" +:+ dquote +:+ "audience" +:+ dquote +:+ ":"
                +:+ json_quote E (Audience o)
                +:+ "," +:+ dquote +:+ "includeEmail" +:+ dquote +:+ ":"
                +:+ (if IncludeEmail o then "true" else "false")
                +:+ match Delegates o with
                    | [] => EmptyString
                    | _ :: _ =>
                        "," +:+ dquote +:+ "delegates" +:+ dquote +:+ ":" +:+ "["
                        +:+ String.concat ","
                              (json_quote E <$>
                                 (formatIAMServiceAccountName E <$> Delegates o))
                        +:+ "]"
                    end
                +:+ "}")
           (outbound E (provider_of c) w2)
    /\ length (outbound E (provider_of c) w2)
       = match url_Parse E (Token_url E (provider_of c)) with
         | None => 1%nat
         | Some _ => 0%nat
         end.
Proof.
  intros H w2. apply New_Return_built in H. destruct H as (cl & cr & ->).
  rewrite outbound_Token.
  destruct (url_Parse E _); split; try reflexivity; [constructor |].
  repeat constructor. change (Body (Token_request E (provider_of (built E o cl cr))))
    with (Token_body E (provider_of (built E o cl cr))).
  rewrite Token_body_text. simpl. now destruct (Delegates o).
Qed.

(** C5 (as amended): one formatter serves the target principal and the
    delegates.  The provider that construction returns holds the delegates
    already formatted and the target principal as supplied.  Every later
    fetch hands one request to the transport (none when the request cannot
    be created); its body carries the stored delegates as they are,
    quoted and in order, with no formatter applied again, and its URL is
    built by [Token] formatting the stored, unformatted target
    principal. *)
Theorem normalizer_use (o : IDTokenOptions Creds) w c w1 :
  NewIDTokenCredentials E (Some o) w = (Return c, w1) ->
  delegates (provider_of c) = formatIAMServiceAccountName E <$> Delegates o
  /\ targetPrincipal (provider_of c) = TargetPrincipal o
  /\ forall w2,
       Forall (fun req =>
                 URL req = iamCredentialsEndpoint E +:+ "/v1/" +:+
                           formatIAMServiceAccountName E
                             (targetPrincipal (provider_of c)) +:+
                           ":generateIdToken"
                 /\ Body req =
                      "{" +:+ dquote +:+ "audience" +:+ dquote +:+ ":"
                      +:+ json_quote E (Audience o)
                      +:+ "," +:+ dquote +:+ "includeEmail" +:+ dquote +:+ ":"
                      +:+ (if IncludeEmail o then "true" else "false")
                      +:+ match delegates (provider_of c) with
                          | [] => EmptyString
                          | _ :: _ =>
                              "," +:+ dquote +:+ "delegates" +:+ dquote +:+ ":" +:+ "["
                              +:+ String.concat ","
                                    (json_quote E <$> delegates (provider_of c))
                              +:+ "]"
                          end
                      +:+ "}")
              (outbound E (provider_of c) w2)
       /\ length (outbound E (provider_of c) w2)
          = match url_Parse E (Token_url E (provider_of c)) with
            | None => 1%nat
            | Some _ => 0%nat
            end.
Proof.
  intros H. apply New_Return_built in H. destruct H as (cl & cr & ->).
  split; [reflexivity |]. split; [reflexivity |]. intros w2.
  rewrite outbound_Token.
  destruct (url_Parse E _); split; try reflexivity; [constructor |].
  repeat constructor.
  change (Body (Token_request E (provider_of (built E o cl cr))))
    with (Token_body E (provider_of (built E o cl cr))).
  rewrite Token_body_text. reflexivity.
Qed.

End ConstructionFacts.

(** *** Iterators *)

Section IteratorFacts.
Context {T PageInfo Resp : Type}.
Implicit Types (it : Iterator.t T PageInfo Resp) (s : Iterator.store T PageInfo Resp).

(** An error from [nextFunc] is returned as it is, with no item. *)
Lemma Next_error it e s :
  Iterator.nextFunc it (Iterator.fields it) = (Some e, s) ->
  Iterator.Next it = (Fail e, Iterator.with_fields it s).
Proof.
  intros H. unfold Iterator.Next.
  erewrite bind_Fail by (unfold Iterator.call_nextFunc; rewrite H; reflexivity).
  reflexivity.
Qed.

(** After a nil error [Next] indexes the buffer that [nextFunc] left. *)
Lemma Next_nil_error it s :
  Iterator.nextFunc it (Iterator.fields it) = (None, s) ->
  Iterator.Next it =
    match Iterator.items s with
    | x :: tl => (Return x, Iterator.with_fields it (Iterator.set_items tl s))
    | [] => (Panic "runtime error: index out of range [0] with length 0",
             Iterator.with_fields it s)
    end.
Proof.
  intros H. unfold Iterator.Next.
  erewrite bind_Return by (unfold Iterator.call_nextFunc; rewrite H; reflexivity).
  unfold mbind, M_bind, Iterator.index0, Iterator.drop_first. simpl.
  destruct (Iterator.items s) as [|x tl] eqn:Hs; simpl; [reflexivity |].
  now rewrite Hs.
Qed.

End IteratorFacts.

(** C10: for either iterator, when [nextFunc] returns a nil error [Next]
    indexes the first item of the buffer [nextFunc] left: if that buffer
    is [x :: tl], [Next] returns [x] with a nil error and the buffer
    becomes [tl] (same order, one shorter); if it is empty, indexing
    [items[0]] is out of bounds and [Next] panics. *)
Theorem Next_takes_buffer_head {DeliveryVehicle Task PageInfo Resp : Type}
    (dv : DeliveryVehicleIterator DeliveryVehicle PageInfo Resp)
    (tk : TaskIterator Task PageInfo Resp) sd st :
  Iterator.nextFunc dv (Iterator.fields dv) = (None, sd) ->
  Iterator.nextFunc tk (Iterator.fields tk) = (None, st) ->
  match Iterator.items sd with
  | x :: tl =>
      exists dv',
        DeliveryVehicleIterator_Next dv = (Return x, dv')
        /\ Iterator.items (Iterator.fields dv') = tl
        /\ S (length (Iterator.items (Iterator.fields dv'))) = length (Iterator.items sd)
  | [] =>
      (DeliveryVehicleIterator_Next dv).1
      = Panic "runtime error: index out of range [0] with length 0"
  end
  /\ match Iterator.items st with
     | x :: tl =>
         exists tk',
           TaskIterator_Next tk = (Return x, tk')
           /\ Iterator.items (Iterator.fields tk') = tl
           /\ S (length (Iterator.items (Iterator.fields tk'))) = length (Iterator.items st)
     | [] =>
         (TaskIterator_Next tk).1
         = Panic "runtime error: index out of range [0] with length 0"
     end.
Proof.
  intros Hd Ht. unfold DeliveryVehicleIterator_Next, TaskIterator_Next.
  rewrite (Next_nil_error dv sd Hd), (Next_nil_error tk st Ht).
  split.
  - destruct (Iterator.items sd) as [|x tl] eqn:Hs; [reflexivity |].
    eexists. split; [reflexivity |]. split; reflexivity.
  - destruct (Iterator.items st) as [|x tl] eqn:Hs; [reflexivity |].
    eexists. split; [reflexivity |]. split; reflexivity.
Qed.

(** *** Instances *)

Example format_bare :
  Sample.formatIAMServiceAccountName_spec "b@x" = "projects/-/serviceAccounts/b@x".
Proof. reflexivity. Qed.

Example format_qualified :
  Sample.formatIAMServiceAccountName_spec "projects/p1/serviceAccounts/b@x"
  = "projects/p1/serviceAccounts/b@x".
Proof. reflexivity. Qed.

Example decode_sample :
  Sample.decode_token (Sample.token_prefix +:+ "abc123" +:+ Sample.token_suffix)
  = Ok {| generateIDTokenResponse.Token := "abc123" |}.
Proof. reflexivity. Qed.

Example decode_html :
  Sample.decode_token "<html></html>"
  = Err (errorString "invalid character looking for beginning of value").
Proof. reflexivity. Qed.

Example Token_issuing :
  (Token Sample.env (Sample.provider_with Sample.issuing) Sample.w0).1
  = Return {| Value := "abc123"; Expiry := 3600000001001 |}.
Proof. vm_compute. reflexivity. Qed.

Example Token_denying :
  (Token Sample.env (Sample.provider_with Sample.denying) Sample.w0).1
  = Fail (errorString "impersonate: status code 403: permission denied").
Proof. vm_compute. reflexivity. Qed.

Example Next_numbers :
  (Iterator.Next Sample.numbers).1 = Return 4%nat
  /\ Iterator.items (Iterator.fields (Iterator.Next Sample.numbers).2) = [5; 6]%nat.
Proof. split; reflexivity. Qed.

Example Next_drained :
  (Iterator.Next Sample.drained).1
  = Panic "runtime error: index out of range [0] with length 0".
Proof. reflexivity. Qed.

Lemma Next_takes_buffer_head_witness :
  (exists dv',
     DeliveryVehicleIterator_Next Sample.numbers = (Return 4%nat, dv')
     /\ Iterator.items (Iterator.fields dv') = [5; 6]%nat
     /\ S (length (Iterator.items (Iterator.fields dv'))) = 3%nat)
  /\ (TaskIterator_Next Sample.drained).1
     = Panic "runtime error: index out of range [0] with length 0".
Proof.
  exact (Next_takes_buffer_head Sample.numbers Sample.drained
           (Iterator.fields Sample.numbers) (Iterator.fields Sample.drained)
           eq_refl eq_refl).
Defined.

Lemma Token_success_witness :
  exists w',
    Token Sample.env (Sample.provider_with Sample.issuing) Sample.w0
    = (Return {| Value := "abc123"; Expiry := now w' + 3600 * 1000000000 |}, w')
    /\ now w' = 1001.
Proof.
  apply (Token_success_value_and_expiry Sample.env (Sample.provider_with Sample.issuing)
           Sample.w0 {| StatusCode := 200 |}
           (Sample.token_prefix +:+ "abc123" +:+ Sample.token_suffix) 1001
           {| generateIDTokenResponse.Token := "abc123" |});
    [reflexivity | reflexivity | simpl; lia | reflexivity].
Defined.

Lemma Token_status_error_witness :
  exists e w',
    Token Sample.env (Sample.provider_with Sample.denying) Sample.w0 = (Fail e, w')
    /\ Error e = "impersonate: status code " +:+ pretty 403 +:+ ": " +:+ "permission denied"
    /\ contains (Error e) (pretty 403)
    /\ contains (Error e) "permission denied".
Proof.
  apply (Token_status_error Sample.env (Sample.provider_with Sample.denying)
           Sample.w0 {| StatusCode := 403 |} "permission denied" 1001);
    [reflexivity | reflexivity | simpl; lia].
Defined.

Lemma Token_decoder_decides_witness :
  (exists w',
     Token Decoding.env (Sample.provider_with Sample.garbled) Sample.w0
     = (Fail (fmt_Errorf_w "impersonate: unable to parse response: "
                (errorString "invalid character '<' looking for beginning of value")),
        w'))
  /\ (forall tok w',
        Token Decoding.env (Sample.provider_with Sample.garbled) Sample.w0
        <> (Return tok, w')).
Proof.
  refine (proj1 (Token_decoder_decides Decoding.env (Sample.provider_with Sample.garbled)
                   Sample.w0 {| StatusCode := 200 |} "<html></html>" 1001
                   eq_refl eq_refl _) _ _); [simpl; lia | reflexivity].
Defined.

(** C6, as stated, fails: the bodies [{}] and [null] are not of the shape
    [{token: string}] (neither even holds the word token), the status is
    200, and [Token] returns a token, with an empty value, and no
    error. *)
Lemma token_from_body_without_token_member :
  Do Decoding.empty_object
     (Token_request Decoding.env (Sample.provider_with Decoding.empty_object))
     (at_exchange Decoding.env (Sample.provider_with Decoding.empty_object) Sample.w0)
  = (Ok ({| StatusCode := 200 |}, "{}"), 1001)
  /\ ~ contains "{}" "token"
  /\ (Token Decoding.env (Sample.provider_with Decoding.empty_object) Sample.w0).1
     = Return {| Value := EmptyString; Expiry := 3600000001001 |}
  /\ Do Decoding.null_body
       (Token_request Decoding.env (Sample.provider_with Decoding.null_body))
       (at_exchange Decoding.env (Sample.provider_with Decoding.null_body) Sample.w0)
     = (Ok ({| StatusCode := 200 |}, "null"), 1001)
  /\ ~ contains "null" "token"
  /\ (Token Decoding.env (Sample.provider_with Decoding.null_body) Sample.w0).1
     = Return {| Value := EmptyString; Expiry := 3600000001001 |}.
Proof.
  assert (Hshort : forall s : string,
             (String.length s < 5)%nat -> ~ contains s "token").
  { intros s Hs (pre & post & H). apply (f_equal String.length) in H.
    rewrite !length_append in H. simpl in H. lia. }
  split; [reflexivity |]. split; [apply Hshort; simpl; lia |].
  split; [vm_compute; reflexivity |]. split; [reflexivity |].
  split; [apply Hshort; simpl; lia |]. vm_compute; reflexivity.
Qed.

Example New_nil :
  NewIDTokenCredentials Sample.env None Sample.w0
  = (Fail (errorString "impersonate: options must be provided"), Sample.w0).
Proof. reflexivity. Qed.

Example New_no_audience :
  NewIDTokenCredentials Sample.env
    (Some {| Audience := EmptyString; TargetPrincipal := EmptyString;
             IncludeEmail := false; Delegates := []; Credentials := None;
             Client := None; OptLogger := None |}) Sample.w0
  = (Fail (errorString "impersonate: audience must be provided"), Sample.w0).
Proof. reflexivity. Qed.

Example New_no_target :
  NewIDTokenCredentials Sample.env
    (Some {| Audience := "https://example.com"; TargetPrincipal := EmptyString;
             IncludeEmail := false; Delegates := []; Credentials := None;
             Client := Some Sample.issuing; OptLogger := None |}) Sample.w0
  = (Fail (errorString "impersonate: target service account must be provided"),
     Sample.w0).
Proof. reflexivity. Qed.

Example New_with_client :
  NewIDTokenCredentials Sample.env (Some Sample.opts) Sample.w0
  = (Return (built Sample.env Sample.opts Sample.issuing None), Sample.w0).
Proof. reflexivity. Qed.

Example New_stores :
  provider_of (built Sample.env Sample.opts Sample.issuing None)
  = {| client := Sample.issuing; logger := {| debugEnabled := true |};
       targetPrincipal := "sa@example.iam.gserviceaccount.com";
       audience := "https://example.com"; includeEmail := true;
       delegates := ["projects/-/serviceAccounts/b@x";
                     "projects/-/serviceAccounts/a@y"] |}.
Proof. reflexivity. Qed.

Lemma Token_request_body_witness :
  Forall (fun req =>
            Body req =
              "{" +:+ dquote +:+ "audience" +:+ dquote +:+ ":"
              +:+ Sample.quote_plain "https://example.com"
              +:+ "," +:+ dquote +:+ "includeEmail" +:+ dquote +:+ ":"
              +:+ "true"
              +:+ ("," +:+ dquote +:+ "delegates" +:+ dquote +:+ ":" +:+ "["
                   +:+ String.concat ","
                         [Sample.quote_plain "projects/-/serviceAccounts/b@x";
                          Sample.quote_plain "projects/-/serviceAccounts/a@y"]
                   +:+ "]")
              +:+ "}")
         (outbound Sample.env
            (provider_of (built Sample.env Sample.opts Sample.issuing None)) Sample.w0)
  /\ length (outbound Sample.env
              (provider_of (built Sample.env Sample.opts Sample.issuing None)) Sample.w0)
     = 1%nat.
Proof.
  exact (Token_request_body Sample.env Sample.opts Sample.w0
           (built Sample.env Sample.opts Sample.issuing None) Sample.w0 eq_refl
           Sample.w0).
Defined.

Lemma normalizer_use_witness :
  delegates (provider_of (built Sample.env Sample.opts Sample.issuing None))
  = ["projects/-/serviceAccounts/b@x"; "projects/-/serviceAccounts/a@y"]
  /\ targetPrincipal (provider_of (built Sample.env Sample.opts Sample.issuing None))
     = "sa@example.iam.gserviceaccount.com"
  /\ forall w2,
       Forall (fun req =>
                 URL req = "https://iamcredentials.googleapis.com" +:+ "/v1/" +:+
                           "projects/-/serviceAccounts/sa@example.iam.gserviceaccount.com" +:+
                           ":generateIdToken"
                 /\ Body req =
                      "{" +:+ dquote +:+ "audience" +:+ dquote +:+ ":"
                      +:+ Sample.quote_plain "https://example.com"
                      +:+ "," +:+ dquote +:+ "includeEmail" +:+ dquote +:+ ":"
                      +:+ "true"
                      +:+ ("," +:+ dquote +:+ "delegates" +:+ dquote +:+ ":" +:+ "["
                           +:+ String.concat ","
                                 [Sample.quote_plain "projects/-/serviceAccounts/b@x";
                                  Sample.quote_plain "projects/-/serviceAccounts/a@y"]
                           +:+ "]")
                      +:+ "}")
              (outbound Sample.env
                 (provider_of (built Sample.env Sample.opts Sample.issuing None)) w2)
       /\ length (outbound Sample.env
                   (provider_of (built Sample.env Sample.opts Sample.issuing None)) w2)
          = 1%nat.
Proof.
  exact (normalizer_use Sample.env Sample.opts Sample.w0
           (built Sample.env Sample.opts Sample.issuing None) Sample.w0 eq_refl).
Defined.

(** C2, as stated, fails: these options have a non-empty audience and a
    non-empty target principal and name neither client nor credentials;
    where no default credentials are found, construction returns the
    detection error and no credentials. *)
Lemma valid_options_construction_fails :
  Audience Sample.bare_opts <> EmptyString
  /\ TargetPrincipal Sample.bare_opts <> EmptyString
  /\ NewIDTokenCredentials Sample.env (Some Sample.bare_opts) Sample.w0
     = (Fail (errorString "credentials: could not find default credentials"), Sample.w0)
  /\ (forall c w',
        NewIDTokenCredentials Sample.env (Some Sample.bare_opts) Sample.w0
        <> (Return c, w')).
Proof.
  split; [discriminate |]. split; [discriminate |]. split; [reflexivity |].
  intros c w' H. discriminate H.
Qed.

(** C5, as stated, fails: the constructed provider holds the target
    principal as supplied, not formatted, and the fetch is what formats
    it: over the same provider, the URL sent changes with the formatter
    that [Token] is run with. *)
Lemma target_principal_formatted_per_fetch :
  NewIDTokenCredentials Sample.env (Some Sample.opts) Sample.w0
  = (Return (built Sample.env Sample.opts Sample.issuing None), Sample.w0)
  /\ targetPrincipal (provider_of (built Sample.env Sample.opts Sample.issuing None))
     = "sa@example.iam.gserviceaccount.com"
  /\ formatIAMServiceAccountName Sample.env (TargetPrincipal Sample.opts)
     = "projects/-/serviceAccounts/sa@example.iam.gserviceaccount.com"
  /\ targetPrincipal (provider_of (built Sample.env Sample.opts Sample.issuing None))
     <> formatIAMServiceAccountName Sample.env (TargetPrincipal Sample.opts)
  /\ URL <$> outbound Sample.env
               (provider_of (built Sample.env Sample.opts Sample.issuing None)) Sample.w0
     = ["https://iamcredentials.googleapis.com/v1/projects/-/serviceAccounts/sa@example.iam.gserviceaccount.com:generateIdToken"]
  /\ URL <$> outbound (Sample.with_formatter (fun name => name) Sample.env)
               (provider_of (built Sample.env Sample.opts Sample.issuing None)) Sample.w0
     = ["https://iamcredentials.googleapis.com/v1/sa@example.iam.gserviceaccount.com:generateIdToken"].
Proof.
  split; [reflexivity |]. split; [reflexivity |]. split; [reflexivity |].
  split; [discriminate |]. split; reflexivity.
Qed.

(** ** Further properties *)

(** *** Fetches: failures, the log, repetition *)

Section FetchFacts.
Context {Creds : Type}.
Variable E : Env Creds.
Variable i : impersonatedIDTokenProvider.

Lemma at_exchange_quiet w :
  debugEnabled (logger i) = false -> at_exchange E i w = w.
Proof. intros H. unfold at_exchange, DebugContext. now rewrite H. Qed.

Lemma logged_at_exchange w :
  logged (at_exchange E i w) =
    if debugEnabled (logger i)
    then logged w ++ [{| msg := "impersonated idtoken request"; key := "request";
                         attr := internallog_HTTPRequest (Token_request E i)
                                   (Token_body E i) |}]
    else logged w.
Proof. unfold at_exchange, DebugContext. now destruct (debugEnabled (logger i)). Qed.

Lemma logged_after_exchange resp body t w :
  logged (after_exchange E i resp body t w) =
    if debugEnabled (logger i)
    then logged (at_exchange E i w)
         ++ [{| msg := "impersonated idtoken response"; key := "response";
                attr := internallog_HTTPResponse resp body |}]
    else logged (at_exchange E i w).
Proof. unfold after_exchange, DebugContext. now destruct (debugEnabled (logger i)). Qed.

(** The world [Token] returns, once the request exists. *)
Lemma Token_world w r t :
  url_Parse E (Token_url E i) = None ->
  Do (client i) (Token_request E i) (at_exchange E i w) = (r, t) ->
  (Token E i w).2 =
    match r with
    | Ok (resp, body) => after_exchange E i resp body t w
    | Err _ => {| now := t; sent := sent (at_exchange E i w) ++ [Token_request E i];
                  logged := logged (at_exchange E i w) |}
    end.
Proof.
  intros Hurl Hdo. rewrite (Token_exchange E i w r t Hurl Hdo).
  destruct r as [[resp body]|e]; [| reflexivity]. cbv zeta.
  destruct ((StatusCode resp <? 200) || (StatusCode resp >? 299)); [reflexivity |].
  now destruct (json_Unmarshal E body).
Qed.

Lemma sent_Token w :
  sent (Token E i w).2 =
    sent w ++ match url_Parse E (Token_url E i) with
              | None => [Token_request E i]
              | Some _ => []
              end.
Proof.
  destruct (url_Parse E (Token_url E i)) as [e|] eqn:Hurl.
  - rewrite (Token_no_request E i w e Hurl). simpl. now rewrite app_nil_r.
  - destruct (Do (client i) (Token_request E i) (at_exchange E i w)) as [r t] eqn:Hdo.
    rewrite (Token_world w r t Hurl Hdo).
    destruct r as [[resp body]|e].
    + apply sent_after_exchange.
    + simpl. now rewrite sent_at_exchange.
Qed.

(** X1: when the transport fails, [Token] returns no token but the error
    ["impersonate: unable to generate ID token: " + cause], which unwraps
    to the transport's error; the request has gone out, the response is
    not logged, and the clock stands where the failed exchange left it. *)
Theorem Token_transport_error w e t :
  url_Parse E (Token_url E i) = None ->
  Do (client i) (Token_request E i) (at_exchange E i w) = (Err e, t) ->
  exists err w',
    Token E i w = (Fail err, w')
    /\ Error err = "impersonate: unable to generate ID token: " +:+ Error e
    /\ Unwrap err = Some e
    /\ sent w' = sent w ++ [Token_request E i]
    /\ logged w' = logged (at_exchange E i w)
    /\ now w' = t.
Proof.
  intros Hurl Hdo. eexists _, _.
  rewrite (Token_exchange E i w _ t Hurl Hdo).
  split; [reflexivity |]. simpl. rewrite sent_at_exchange. repeat split.
Qed.

(** X2: when the request cannot be created, [Token] returns the error
    ["impersonate: unable to create request: " + cause], which unwraps to
    the cause, and leaves everything as it was: nothing is sent and
    nothing is logged, whatever the logger. *)
Theorem Token_request_error w e :
  url_Parse E (Token_url E i) = Some e ->
  exists err,
    Token E i w = (Fail err, w)
    /\ Error err = "impersonate: unable to create request: " +:+ Error e
    /\ Unwrap err = Some e
    /\ outbound E i w = [].
Proof.
  intros Hurl. eexists. split; [apply (Token_no_request E i w e Hurl) |].
  split; [reflexivity |]. split; [reflexivity |].
  unfold outbound. rewrite (Token_no_request E i w e Hurl). simpl. apply drop_all.
Qed.

(** X3: every error [Token] returns is of one of four kinds: the request
    could not be created, the transport failed, the status was outside
    [200,299], or the body was rejected by the decoder.  The first, second
    and fourth wrap their cause; marshalling the request never fails. *)
Theorem Token_failure_kinds w err w' :
  Token E i w = (Fail err, w') ->
  (exists e, url_Parse E (Token_url E i) = Some e
             /\ err = fmt_Errorf_w "impersonate: unable to create request: " e)
  \/ (exists e t,
        Do (client i) (Token_request E i) (at_exchange E i w) = (Err e, t)
        /\ err = fmt_Errorf_w "impersonate: unable to generate ID token: " e)
  \/ (exists resp body t,
        Do (client i) (Token_request E i) (at_exchange E i w) = (Ok (resp, body), t)
        /\ (StatusCode resp < 200 \/ 299 < StatusCode resp)
        /\ err = errorString ("impersonate: status code " +:+ pretty (StatusCode resp)
                              +:+ ": " +:+ body))
  \/ (exists resp body t e,
        Do (client i) (Token_request E i) (at_exchange E i w) = (Ok (resp, body), t)
        /\ 200 <= StatusCode resp <= 299
        /\ json_Unmarshal E body = Err e
        /\ err = fmt_Errorf_w "impersonate: unable to parse response: " e).
Proof.
  intros H. destruct (url_Parse E (Token_url E i)) as [e|] eqn:Hurl.
  { rewrite (Token_no_request E i w e Hurl) in H. injection H as <- _. left. eauto. }
  right. destruct (Do (client i) (Token_request E i) (at_exchange E i w))
    as [r t] eqn:Hdo.
  rewrite (Token_exchange E i w r t Hurl Hdo) in H.
  destruct r as [[resp body]|e]; [| injection H as <- _; left; eauto].
  right. cbv zeta in H.
  destruct ((StatusCode resp <? 200) || (StatusCode resp >? 299)) eqn:Hc.
  - apply status_out_of_range in Hc. injection H as <- _. left.
    exists resp, body, t. auto.
  - apply status_in_range in Hc.
    destruct (json_Unmarshal E body) as [g|e] eqn:Hg; [discriminate |].
    injection H as <- _. right. exists resp, body, t, e. auto.
Qed.

(** X4: whenever [Token] returns a token, exactly one request went out,
    the exchange completed with a status in [200,299], the decoder
    accepted the body, the token's value is the decoded field, and its
    expiry is one hour past the clock of the world [Token] returns. *)
Theorem Token_returns_only_after_success w tok w' :
  Token E i w = (Return tok, w') ->
  exists resp body g,
    Do (client i) (Token_request E i) (at_exchange E i w) = (Ok (resp, body), now w')
    /\ 200 <= StatusCode resp <= 299
    /\ json_Unmarshal E body = Ok g
    /\ Value tok = generateIDTokenResponse.Token g
    /\ Expiry tok = now w' + 3600 * 1000000000
    /\ sent w' = sent w ++ [Token_request E i].
Proof.
  intros H. destruct (url_Parse E (Token_url E i)) as [e|] eqn:Hurl.
  { rewrite (Token_no_request E i w e Hurl) in H. discriminate. }
  destruct (Do (client i) (Token_request E i) (at_exchange E i w)) as [r t] eqn:Hdo.
  rewrite (Token_exchange E i w r t Hurl Hdo) in H.
  destruct r as [[resp body]|e]; [| discriminate]. cbv zeta in H.
  destruct ((StatusCode resp <? 200) || (StatusCode resp >? 299)) eqn:Hc;
    [discriminate |].
  apply status_in_range in Hc.
  destruct (json_Unmarshal E body) as [g|e] eqn:Hg; [| discriminate].
  injection H as <- <-. exists resp, body, g.
  rewrite now_after_exchange, sent_after_exchange. repeat split; auto; lia.
Qed.

(** X5: a provider whose logger has debug disabled logs nothing: a fetch
    leaves the log as it was, whatever its outcome. *)
Theorem Token_quiet_logger w :
  debugEnabled (logger i) = false ->
  logged (Token E i w).2 = logged w.
Proof.
  intros Hq. destruct (url_Parse E (Token_url E i)) as [e|] eqn:Hurl.
  { now rewrite (Token_no_request E i w e Hurl). }
  destruct (Do (client i) (Token_request E i) (at_exchange E i w)) as [r t] eqn:Hdo.
  rewrite (Token_world w r t Hurl Hdo).
  destruct r as [[resp body]|e].
  - rewrite logged_after_exchange, logged_at_exchange. now rewrite Hq.
  - simpl. rewrite logged_at_exchange. now rewrite Hq.
Qed.

(** X6: with debug enabled, a fetch whose exchange completes appends
    exactly two records, in this order: the request with its body, then
    the response with its body; this is so for every status and whether or
    not the body decodes. *)
Theorem Token_debug_records w resp body t :
  debugEnabled (logger i) = true ->
  url_Parse E (Token_url E i) = None ->
  Do (client i) (Token_request E i) (at_exchange E i w) = (Ok (resp, body), t) ->
  logged (Token E i w).2 =
    logged w
    ++ [{| msg := "impersonated idtoken request"; key := "request";
           attr := internallog_HTTPRequest (Token_request E i) (Token_body E i) |};
        {| msg := "impersonated idtoken response"; key := "response";
           attr := internallog_HTTPResponse resp body |}].
Proof.
  intros Hd Hurl Hdo. rewrite (Token_world w _ t Hurl Hdo).
  rewrite logged_after_exchange, logged_at_exchange, Hd.
  now rewrite <- app_assoc.
Qed.

(** X8: the provider keeps no token: [n] successive fetches put [n]
    requests on the wire, one per fetch and all the same, whatever each
    fetch returned (none when the request cannot be created). *)
Theorem fetches_send_one_request_each n w :
  sent (fetches E i n w) =
    sent w ++ replicate (match url_Parse E (Token_url E i) with
                         | None => n
                         | Some _ => 0%nat
                         end) (Token_request E i).
Proof.
  revert w. induction n as [|n IH]; intros w; simpl.
  - destruct (url_Parse E (Token_url E i)); simpl; now rewrite app_nil_r.
  - rewrite IH, sent_Token.
    destruct (url_Parse E (Token_url E i)); simpl.
    + now rewrite !app_nil_r.
    + now rewrite <- app_assoc.
Qed.

End FetchFacts.

Section LoggerFacts.
Context {Creds : Type}.
Variable E : Env Creds.

Lemma now_at_exchange i w : now (at_exchange E i w) = now w.
Proof. unfold at_exchange. apply DebugContext_now. Qed.

Lemma now_Token i w r t :
  url_Parse E (Token_url E i) = None ->
  Do (client i) (Token_request E i) (at_exchange E i w) = (r, t) ->
  now (Token E i w).2 = t.
Proof.
  intros Hurl Hdo. rewrite (Token_world E i w r t Hurl Hdo).
  destruct r as [[resp body]|e]; [apply now_after_exchange | reflexivity].
Qed.

(** X7: logging never steers a fetch.  Over a transport that does not
    look at the debug log, replacing the provider's logger by any other
    changes neither what [Token] returns, nor the requests sent, nor the
    clock. *)
Theorem Token_logger_irrelevant i l w :
  blind_to_log (client i) ->
  (Token E (with_logger l i) w).1 = (Token E i w).1
  /\ sent (Token E (with_logger l i) w).2 = sent (Token E i w).2
  /\ now (Token E (with_logger l i) w).2 = now (Token E i w).2.
Proof.
  intros Hblind.
  assert (Hsent : sent (Token E (with_logger l i) w).2 = sent (Token E i w).2).
  { rewrite !sent_Token. reflexivity. }
  change (Token_url E (with_logger l i)) with (Token_url E i) in *.
  destruct (url_Parse E (Token_url E i)) as [e|] eqn:Hurl.
  { rewrite (Token_no_request E i w e Hurl).
    rewrite (Token_no_request E (with_logger l i) w e Hurl). auto. }
  destruct (Do (client i) (Token_request E i) (at_exchange E i w)) as [r t] eqn:Hdo.
  assert (Hdo' : Do (client (with_logger l i)) (Token_request E (with_logger l i))
                   (at_exchange E (with_logger l i) w) = (r, t)).
  { rewrite <- Hdo. apply Hblind.
    - now rewrite !now_at_exchange.
    - now rewrite !sent_at_exchange. }
  split; [| split; [exact Hsent |]].
  - rewrite (Token_exchange E i w r t Hurl Hdo).
    rewrite (Token_exchange E (with_logger l i) w r t Hurl Hdo').
    destruct r as [[resp body]|e]; [| reflexivity]. cbv zeta.
    destruct ((StatusCode resp <? 200) || (StatusCode resp >? 299)); [reflexivity |].
    now destruct (json_Unmarshal E body).
  - rewrite (now_Token i w r t Hurl Hdo).
    now rewrite (now_Token (with_logger l i) w r t Hurl Hdo').
Qed.

End LoggerFacts.

(** *** Construction: which collaborators are used *)

Section ConstructionMore.
Context {Creds : Type}.
Variable E : Env Creds.


(** X10: constructed credentials have no universe-domain provider exactly
    when the options brought a client and no base credentials; base
    credentials brought by the options are the ones it wraps, detection
    or not. *)
Theorem New_universe_domain (o : IDTokenOptions Creds) w c w' :
  NewIDTokenCredentials E (Some o) w = (Return c, w') ->
  (universe_of c = None <-> Client o <> None /\ Credentials o = None)
  /\ (forall cr, Credentials o = Some cr -> universe_of c = Some cr).
Proof.
  intros H. destruct (validate_total (Some o)) as [[e|] Hv].
  { rewrite (New_invalid E o w e Hv) in H. discriminate. }
  rewrite (New_valid E o w Hv) in H.
  destruct (Client o) as [cl|].
  { injection H as <- _. simpl. split; [| auto].
    split; [intros ->; split; [discriminate | reflexivity] | tauto]. }
  destruct (Credentials o) as [cr|].
  { destruct (httptransport_NewClient E _) as [cl|e]; [| discriminate].
    injection H as <- _. simpl. split; [| auto].
    split; [discriminate | intros [_ ?]; discriminate]. }
  destruct (credentials_DetectDefault E _ w) as [[cr|e] w1]; [| discriminate].
  destruct (httptransport_NewClient E _) as [cl|e]; [| discriminate].
  injection H as <- _. simpl. split; [| discriminate].
  split; [discriminate | intros [? _]; congruence].
Qed.

(** X11: every error of construction is either a validation error,
    returned with the world untouched, or the error of credential
    detection or of transport construction, handed on as it is (not
    wrapped); detection is tried only when the options bring neither
    client nor credentials, transport construction only when they bring
    no client. *)
Theorem New_failure_kinds (opts : option (IDTokenOptions Creds)) w e w' :
  NewIDTokenCredentials E opts w = (Fail e, w') ->
  (w' = w
   /\ (e = errors_New "impersonate: options must be provided" /\ opts = None
       \/ e = errors_New "impersonate: audience must be provided"
       \/ e = errors_New "impersonate: target service account must be provided"))
  \/ (exists o,
        opts = Some o /\ Client o = None /\ Credentials o = None
        /\ credentials_DetectDefault E (detectOptions E o) w = (Err e, w'))
  \/ (exists o cr,
        opts = Some o /\ Client o = None
        /\ (Credentials o = Some cr /\ w' = w
            \/ Credentials o = None
               /\ credentials_DetectDefault E (detectOptions E o) w = (Ok cr, w'))
        /\ httptransport_NewClient E (transportOptions E o cr) = Err e).
Proof.
  intros H. destruct opts as [o|].
  2:{ injection H as <- <-. left. auto. }
  destruct (validate (Some o)) as [[e0|]| |] eqn:Hv.
  - rewrite (New_invalid E o w e0 Hv) in H. injection H as <- <-. left.
    split; [reflexivity |]. rewrite validate_Some in Hv.
    destruct (String.eqb (Audience o) EmptyString);
      [injection Hv as <-; auto |].
    destruct (String.eqb (TargetPrincipal o) EmptyString);
      [injection Hv as <-; auto | discriminate].
  - right. rewrite (New_valid E o w Hv) in H.
    destruct (Client o) as [cl|] eqn:HC; [discriminate |].
    destruct (Credentials o) as [cr|] eqn:HR.
    + destruct (httptransport_NewClient E _) as [cl|e1] eqn:Hcl; [discriminate |].
      injection H as <- <-. right. exists o, cr.
      split; [reflexivity |]. split; [exact HC |]. split; [left | exact Hcl]. auto.
    + destruct (credentials_DetectDefault E _ w) as [[cr|e1] w1] eqn:Hd.
      * destruct (httptransport_NewClient E _) as [cl|e2] eqn:Hcl; [discriminate |].
        injection H as <- <-. right. exists o, cr.
        split; [reflexivity |]. split; [exact HC |]. split; [right | exact Hcl]. auto.
      * injection H as <- <-. left. exists o. auto.
  - destruct (validate_total (Some o)) as [r Hr]. congruence.
  - destruct (validate_total (Some o)) as [r Hr]. congruence.
Qed.

(** X12: construction and fetch compose.  For valid options that bring a
    client, constructing the credentials touches nothing, so constructing
    and then fetching once through their provider is one run of [Token]
    over the provider built around that client.  Whatever the exchange
    then gives, one request goes out, to the URL of the formatted target
    principal of the options (none when that URL does not parse); and if
    the client answers with a status in [200,299] and a body that
    decodes, the fetch returns the decoded token with an expiry one hour
    after the exchange ended. *)
Theorem construct_then_fetch (o : IDTokenOptions Creds) cl w :
  Audience o <> EmptyString -> TargetPrincipal o <> EmptyString ->
  Client o = Some cl ->
  (NewIDTokenCredentials E (Some o) ≫= fun c => Token E (provider_of c)) w
  = Token E (provider_of (built E o cl (Credentials o))) w
  /\ client (provider_of (built E o cl (Credentials o))) = cl
  /\ URL <$> drop (length (sent w))
               (sent ((NewIDTokenCredentials E (Some o)
                         ≫= fun c => Token E (provider_of c)) w).2)
     = match url_Parse E (Token_url E (provider_of (built E o cl (Credentials o)))) with
       | None => [iamCredentialsEndpoint E +:+ "/v1/" +:+
                  formatIAMServiceAccountName E (TargetPrincipal o) +:+
                  ":generateIdToken"]
       | Some _ => []
       end
  /\ (forall resp body t g,
        url_Parse E (Token_url E (provider_of (built E o cl (Credentials o)))) = None ->
        Do cl (Token_request E (provider_of (built E o cl (Credentials o))))
           (at_exchange E (provider_of (built E o cl (Credentials o))) w)
        = (Ok (resp, body), t) ->
        200 <= StatusCode resp <= 299 ->
        json_Unmarshal E body = Ok g ->
        ((NewIDTokenCredentials E (Some o) ≫= fun c => Token E (provider_of c)) w).1
        = Return {| Value := generateIDTokenResponse.Token g;
                    Expiry := t + 3600 * 1000000000 |}).
Proof.
  intros Ha Ht Hcl.
  assert (Hrun : (NewIDTokenCredentials E (Some o) ≫= fun c => Token E (provider_of c)) w
                 = Token E (provider_of (built E o cl (Credentials o))) w).
  { erewrite bind_Return
      by (rewrite (New_valid E o w (validate_valid o Ha Ht)), Hcl; reflexivity).
    reflexivity. }
  split; [exact Hrun |]. split; [reflexivity |]. rewrite Hrun. split.
  - rewrite sent_Token, drop_app_length.
    now destruct (url_Parse E _).
  - intros resp body t g Hurl Hdo Hc Hg.
    rewrite (Token_exchange E _ w _ t Hurl Hdo). cbv zeta.
    replace ((StatusCode resp <? 200) || (StatusCode resp >? 299))
      with false by (symmetry; now apply status_in_range).
    now rewrite Hg.
Qed.

End ConstructionMore.

(** *** Iterators: errors, draining, the buffer *)

Section IteratorMore.
Context {T PageInfo Resp : Type}.
Implicit Types (it : Iterator.t T PageInfo Resp) (s : Iterator.store T PageInfo Resp).

Lemma with_fields_same it : Iterator.with_fields it (Iterator.fields it) = it.
Proof. now destruct it. Qed.

Lemma set_items_same s : Iterator.set_items (Iterator.items s) s = s.
Proof. now destruct s. Qed.

(** X13: when [nextFunc] returns an error, [Next] returns that very error
    and no item, without indexing the buffer: nothing is consumed, and an
    empty buffer does not make it panic. *)
Theorem Next_hands_on_error it e s :
  Iterator.nextFunc it (Iterator.fields it) = (Some e, s) ->
  exists it',
    Iterator.Next it = (Fail e, it')
    /\ Iterator.fields it' = s
    /\ Iterator.bufLen it' = Z.of_nat (length (Iterator.items s)).
Proof.
  intros H. exists (Iterator.with_fields it s). unfold Iterator.Next.
  erewrite bind_Fail by (unfold Iterator.call_nextFunc; rewrite H; reflexivity).
  repeat split.
Qed.

Lemma NextN_run k : forall it,
  idle_when_buffered it ->
  (k <= length (Iterator.items (Iterator.fields it)))%nat ->
  NextN k it =
    (Return (take k (Iterator.items (Iterator.fields it))),
     Iterator.with_fields it
       (Iterator.set_items (drop k (Iterator.items (Iterator.fields it)))
          (Iterator.fields it))).
Proof.
  induction k as [|k IH]; intros it Hidle Hlen.
  - simpl. rewrite drop_0, set_items_same, with_fields_same. reflexivity.
  - destruct (Iterator.items (Iterator.fields it)) as [|x tl] eqn:Hitems;
      [simpl in Hlen; lia |].
    assert (Hnext : Iterator.Next it
                    = (Return x, Iterator.with_fields it
                                   (Iterator.set_items tl (Iterator.fields it)))).
    { rewrite (Next_nil_error it (Iterator.fields it)).
      - now rewrite Hitems.
      - apply Hidle. now rewrite Hitems. }
    change (NextN (S k)) with
      (Iterator.Next ≫= fun x => NextN k ≫= fun xs => mret (x :: xs)
         : M (Iterator.t T PageInfo Resp) (list T)).
    erewrite bind_Return by exact Hnext.
    erewrite bind_Return.
    2:{ apply IH; [exact Hidle | simpl in *; lia]. }
    reflexivity.
Qed.

(** X14: draining keeps the order.  While [nextFunc] leaves a non-empty
    buffer alone, [k] successive calls of [Next], for [k] up to the number
    of buffered items, return the first [k] items in buffer order, each
    with a nil error, and leave the remaining items. *)
Theorem NextN_drains_in_order k it :
  idle_when_buffered it ->
  (k <= length (Iterator.items (Iterator.fields it)))%nat ->
  exists it',
    NextN k it = (Return (take k (Iterator.items (Iterator.fields it))), it')
    /\ Iterator.items (Iterator.fields it')
       = drop k (Iterator.items (Iterator.fields it))
    /\ Iterator.bufLen it' = Iterator.bufLen it - Z.of_nat k.
Proof.
  intros Hidle Hlen. eexists. split; [apply (NextN_run k it Hidle Hlen) |].
  split; [reflexivity |]. unfold Iterator.bufLen. simpl.
  rewrite length_drop. lia.
Qed.

(** X15: draining by [Next] and [takeBuf] agree.  While [nextFunc] leaves
    a non-empty buffer alone, calling [Next] once per buffered item
    returns the same items, in the same order, as one [takeBuf], and both
    leave the same iterator, its buffer empty ([bufLen] zero). *)
Theorem NextN_all_is_takeBuf it :
  idle_when_buffered it ->
  NextN (length (Iterator.items (Iterator.fields it))) it = Iterator.takeBuf it
  /\ Iterator.bufLen (Iterator.takeBuf it).2 = 0.
Proof.
  intros Hidle. split; [| reflexivity].
  rewrite (NextN_run _ it Hidle (le_n _)).
  unfold Iterator.takeBuf. now rewrite firstn_all, drop_all.
Qed.

(** X16: [Next] touches nothing but the buffer: whatever it returns, the
    page info and the raw response are as [nextFunc] left them and the
    iterator keeps its [nextFunc]. *)
Theorem Next_frame it :
  Iterator.PageInfoOf (Iterator.Next it).2
    = Iterator.pageInfo (Iterator.nextFunc it (Iterator.fields it)).2
  /\ Iterator.Response (Iterator.fields (Iterator.Next it).2)
     = Iterator.Response (Iterator.nextFunc it (Iterator.fields it)).2
  /\ Iterator.nextFunc (Iterator.Next it).2 = Iterator.nextFunc it.
Proof.
  destruct (Iterator.nextFunc it (Iterator.fields it)) as [[e|] s] eqn:H.
  - rewrite (Next_error it e s H). repeat split.
  - rewrite (Next_nil_error it s H).
    destruct (Iterator.items s); repeat split.
Qed.

End IteratorMore.

(** *** Further instances *)

Example Token_offline :
  (Token Sample.env (Sample.provider_with Scenario.offline) Sample.w0).1
  = Fail (wrapError
            "impersonate: unable to generate ID token: dial tcp: connection refused"
            (errorString "dial tcp: connection refused")).
Proof. vm_compute. reflexivity. Qed.

Example NextN_numbers :
  (NextN 2 Sample.numbers).1 = Return [4; 5]%nat
  /\ (NextN 4 Sample.numbers).1
     = Panic "runtime error: index out of range [0] with length 0".
Proof. split; reflexivity. Qed.

Lemma Token_transport_error_witness :
  exists err w',
    Token Sample.env (Sample.provider_with Scenario.offline) Sample.w0 = (Fail err, w')
    /\ Error err = "impersonate: unable to generate ID token: "
                   +:+ Error (errorString "dial tcp: connection refused")
    /\ Unwrap err = Some (errorString "dial tcp: connection refused")
    /\ sent w' = sent Sample.w0
                 ++ [Token_request Sample.env (Sample.provider_with Scenario.offline)]
    /\ logged w'
       = logged (at_exchange Sample.env (Sample.provider_with Scenario.offline) Sample.w0)
    /\ now w' = 1005.
Proof.
  apply (Token_transport_error Sample.env (Sample.provider_with Scenario.offline)
           Sample.w0 (errorString "dial tcp: connection refused") 1005);
    reflexivity.
Defined.

Lemma Token_request_error_witness :
  exists err,
    Token Scenario.env_bad_url (Sample.provider_with Sample.issuing) Sample.w0
    = (Fail err, Sample.w0)
    /\ Error err = "impersonate: unable to create request: "
                   +:+ Error (errorString "net/url: invalid control character in URL")
    /\ Unwrap err = Some (errorString "net/url: invalid control character in URL")
    /\ outbound Scenario.env_bad_url (Sample.provider_with Sample.issuing) Sample.w0 = [].
Proof.
  apply (Token_request_error Scenario.env_bad_url (Sample.provider_with Sample.issuing)
           Sample.w0 (errorString "net/url: invalid control character in URL")).
  reflexivity.
Defined.

Lemma Token_failure_kinds_witness :
  (exists e,
     url_Parse Sample.env (Token_url Sample.env (Sample.provider_with Sample.denying))
     = Some e
     /\ errorString "impersonate: status code 403: permission denied"
        = fmt_Errorf_w "impersonate: unable to create request: " e)
  \/ (exists e t,
        Do Sample.denying (Token_request Sample.env (Sample.provider_with Sample.denying))
           (at_exchange Sample.env (Sample.provider_with Sample.denying) Sample.w0)
        = (Err e, t)
        /\ errorString "impersonate: status code 403: permission denied"
           = fmt_Errorf_w "impersonate: unable to generate ID token: " e)
  \/ (exists resp body t,
        Do Sample.denying (Token_request Sample.env (Sample.provider_with Sample.denying))
           (at_exchange Sample.env (Sample.provider_with Sample.denying) Sample.w0)
        = (Ok (resp, body), t)
        /\ (StatusCode resp < 200 \/ 299 < StatusCode resp)
        /\ errorString "impersonate: status code 403: permission denied"
           = errorString ("impersonate: status code " +:+ pretty (StatusCode resp)
                          +:+ ": " +:+ body))
  \/ (exists resp body t e,
        Do Sample.denying (Token_request Sample.env (Sample.provider_with Sample.denying))
           (at_exchange Sample.env (Sample.provider_with Sample.denying) Sample.w0)
        = (Ok (resp, body), t)
        /\ 200 <= StatusCode resp <= 299
        /\ json_Unmarshal Sample.env body = Err e
        /\ errorString "impersonate: status code 403: permission denied"
           = fmt_Errorf_w "impersonate: unable to parse response: " e).
Proof.
  apply (Token_failure_kinds Sample.env (Sample.provider_with Sample.denying) Sample.w0
           (errorString "impersonate: status code 403: permission denied")
           (Token Sample.env (Sample.provider_with Sample.denying) Sample.w0).2).
  vm_compute. reflexivity.
Defined.

Lemma Token_returns_only_after_success_witness :
  exists resp body g,
    Do Sample.issuing (Token_request Sample.env (Sample.provider_with Sample.issuing))
       (at_exchange Sample.env (Sample.provider_with Sample.issuing) Sample.w0)
    = (Ok (resp, body),
       now (Token Sample.env (Sample.provider_with Sample.issuing) Sample.w0).2)
    /\ 200 <= StatusCode resp <= 299
    /\ json_Unmarshal Sample.env body = Ok g
    /\ Value {| Value := "abc123"; Expiry := 3600000001001 |}
       = generateIDTokenResponse.Token g
    /\ Expiry {| Value := "abc123"; Expiry := 3600000001001 |}
       = now (Token Sample.env (Sample.provider_with Sample.issuing) Sample.w0).2
         + 3600 * 1000000000
    /\ sent (Token Sample.env (Sample.provider_with Sample.issuing) Sample.w0).2
       = sent Sample.w0
         ++ [Token_request Sample.env (Sample.provider_with Sample.issuing)].
Proof.
  apply (Token_returns_only_after_success Sample.env
           (Sample.provider_with Sample.issuing) Sample.w0
           {| Value := "abc123"; Expiry := 3600000001001 |}
           (Token Sample.env (Sample.provider_with Sample.issuing) Sample.w0).2).
  vm_compute. reflexivity.
Defined.

Lemma Token_quiet_logger_witness :
  logged (Token Sample.env
            (with_logger Scenario.quiet (Sample.provider_with Sample.issuing))
            Sample.w0).2
  = logged Sample.w0.
Proof.
  apply (Token_quiet_logger Sample.env
           (with_logger Scenario.quiet (Sample.provider_with Sample.issuing))
           Sample.w0).
  reflexivity.
Defined.

Lemma Token_debug_records_witness :
  logged (Token Sample.env (Sample.provider_with Sample.garbled) Sample.w0).2 =
    logged Sample.w0
    ++ [{| msg := "impersonated idtoken request"; key := "request";
           attr := internallog_HTTPRequest
                     (Token_request Sample.env (Sample.provider_with Sample.garbled))
                     (Token_body Sample.env (Sample.provider_with Sample.garbled)) |};
        {| msg := "impersonated idtoken response"; key := "response";
           attr := internallog_HTTPResponse {| StatusCode := 200 |} "<html></html>" |}].
Proof.
  apply (Token_debug_records Sample.env (Sample.provider_with Sample.garbled) Sample.w0
           {| StatusCode := 200 |} "<html></html>" 1001); reflexivity.
Defined.

Lemma Token_logger_irrelevant_witness :
  (Token Sample.env
     (with_logger Scenario.quiet (Sample.provider_with Sample.issuing)) Sample.w0).1
  = (Token Sample.env (Sample.provider_with Sample.issuing) Sample.w0).1
  /\ sent (Token Sample.env
             (with_logger Scenario.quiet (Sample.provider_with Sample.issuing))
             Sample.w0).2
     = sent (Token Sample.env (Sample.provider_with Sample.issuing) Sample.w0).2
  /\ now (Token Sample.env
            (with_logger Scenario.quiet (Sample.provider_with Sample.issuing))
            Sample.w0).2
     = now (Token Sample.env (Sample.provider_with Sample.issuing) Sample.w0).2.
Proof.
  apply (Token_logger_irrelevant Sample.env (Sample.provider_with Sample.issuing)
           Scenario.quiet Sample.w0).
  intros req w1 w2 Hnow Hsent. simpl. rewrite Hnow. reflexivity.
Defined.


Lemma New_universe_domain_witness :
  universe_of (built Sample.env Sample.opts Sample.issuing None) = None
  /\ universe_of
       (built Sample.env Scenario.opts_with_credentials Sample.issuing (Some "base"))
     = Some "base"
  /\ universe_of
       (built Scenario.env_detecting Sample.bare_opts Sample.issuing (Some "adc"))
     <> None.
Proof.
  split; [| split].
  - apply (proj1 (New_universe_domain Sample.env Sample.opts Sample.w0
                    (built Sample.env Sample.opts Sample.issuing None) Sample.w0
                    eq_refl)).
    split; [discriminate | reflexivity].
  - apply (proj2 (New_universe_domain Sample.env Scenario.opts_with_credentials
                    Sample.w0
                    (built Sample.env Scenario.opts_with_credentials Sample.issuing
                       (Some "base"))
                    Sample.w0 eq_refl)).
    reflexivity.
  - intros Hnone.
    apply (proj1 (New_universe_domain Scenario.env_detecting Sample.bare_opts Sample.w0
                    (built Scenario.env_detecting Sample.bare_opts Sample.issuing
                       (Some "adc"))
                    {| now := 1001; sent := []; logged := [] |} eq_refl)) in Hnone.
    destruct Hnone as [Hcl _]. apply Hcl. reflexivity.
Defined.

Lemma New_failure_kinds_witness :
  ({| now := 1000; sent := []; logged := [] |} = Sample.w0
   /\ (errorString "httptransport: WithCredentials is incompatible with WithHTTPClient"
       = errors_New "impersonate: options must be provided"
       /\ Some Scenario.opts_with_credentials = None
       \/ errorString "httptransport: WithCredentials is incompatible with WithHTTPClient"
          = errors_New "impersonate: audience must be provided"
       \/ errorString "httptransport: WithCredentials is incompatible with WithHTTPClient"
          = errors_New "impersonate: target service account must be provided"))
  \/ (exists o,
        Some Scenario.opts_with_credentials = Some o
        /\ Client o = None /\ Credentials o = None
        /\ credentials_DetectDefault Scenario.env_no_transport
             (detectOptions Scenario.env_no_transport o) Sample.w0
           = (Err (errorString
                     "httptransport: WithCredentials is incompatible with WithHTTPClient"),
              {| now := 1000; sent := []; logged := [] |}))
  \/ (exists o cr,
        Some Scenario.opts_with_credentials = Some o /\ Client o = None
        /\ (Credentials o = Some cr
            /\ {| now := 1000; sent := []; logged := [] |} = Sample.w0
            \/ Credentials o = None
               /\ credentials_DetectDefault Scenario.env_no_transport
                    (detectOptions Scenario.env_no_transport o) Sample.w0
                  = (Ok cr, {| now := 1000; sent := []; logged := [] |}))
        /\ httptransport_NewClient Scenario.env_no_transport
             (transportOptions Scenario.env_no_transport o cr)
           = Err (errorString
                    "httptransport: WithCredentials is incompatible with WithHTTPClient")).
Proof.
  apply (New_failure_kinds Scenario.env_no_transport
           (Some Scenario.opts_with_credentials) Sample.w0
           (errorString "httptransport: WithCredentials is incompatible with WithHTTPClient")
           {| now := 1000; sent := []; logged := [] |}).
  reflexivity.
Defined.

Lemma construct_then_fetch_witness :
  URL <$> drop (length (sent Sample.w0))
            (sent ((NewIDTokenCredentials Sample.env (Some Sample.opts)
                      ≫= fun c => Token Sample.env (provider_of c)) Sample.w0).2)
  = [iamCredentialsEndpoint Sample.env +:+ "/v1/" +:+
     formatIAMServiceAccountName Sample.env (TargetPrincipal Sample.opts)
     +:+ ":generateIdToken"]
  /\ ((NewIDTokenCredentials Sample.env (Some Sample.opts)
         ≫= fun c => Token Sample.env (provider_of c)) Sample.w0).1
     = Return {| Value := "abc123"; Expiry := 1001 + 3600 * 1000000000 |}.
Proof.
  assert (Ha : Audience Sample.opts <> EmptyString) by discriminate.
  assert (Ht : TargetPrincipal Sample.opts <> EmptyString) by discriminate.
  destruct (construct_then_fetch Sample.env Sample.opts Sample.issuing Sample.w0
              Ha Ht eq_refl) as (_ & _ & Hsent & Hok).
  split; [exact Hsent |].
  apply (Hok {| StatusCode := 200 |}
             (Sample.token_prefix +:+ "abc123" +:+ Sample.token_suffix) 1001
             {| generateIDTokenResponse.Token := "abc123" |});
    [reflexivity | reflexivity | simpl; lia | reflexivity].
Defined.

Lemma Next_hands_on_error_witness :
  exists it',
    Iterator.Next Scenario.done
    = (Fail (errorString "no more items in iterator"), it')
    /\ Iterator.fields it' = Iterator.fields Scenario.done
    /\ Iterator.bufLen it' = Z.of_nat (length (Iterator.items (Iterator.fields Scenario.done))).
Proof.
  apply (Next_hands_on_error Scenario.done (errorString "no more items in iterator")
           (Iterator.fields Scenario.done)).
  reflexivity.
Defined.

Lemma NextN_drains_in_order_witness :
  exists it',
    NextN 2 Sample.numbers
    = (Return (take 2 (Iterator.items (Iterator.fields Sample.numbers))), it')
    /\ Iterator.items (Iterator.fields it')
       = drop 2 (Iterator.items (Iterator.fields Sample.numbers))
    /\ Iterator.bufLen it' = Iterator.bufLen Sample.numbers - Z.of_nat 2.
Proof.
  apply (NextN_drains_in_order 2 Sample.numbers);
    [intros s _; reflexivity | simpl; lia].
Defined.

Lemma NextN_all_is_takeBuf_witness :
  NextN (length (Iterator.items (Iterator.fields Sample.numbers))) Sample.numbers
  = Iterator.takeBuf Sample.numbers
  /\ Iterator.bufLen (Iterator.takeBuf Sample.numbers).2 = 0.
Proof.
  apply (NextN_all_is_takeBuf Sample.numbers). intros s _. reflexivity.
Defined.
